(** * express-payload-parsing: request validation middleware

    A shallow embedding of [index.ts]: an Express application that validates
    the body, the query parameters and the path parameters of a request
    against runtypes descriptors in dedicated middleware functions, before
    the route handler runs.

    - [JS]       the JavaScript values the request slices carry, and the
                 builtins the source calls ([JSON.stringify], [endsWith]);
    - [RT]       the runtypes validation engine (a dependency of the
                 repository: modelled from the specification);
    - [Library]  records and guards as the library itself checks them,
                 where it parts from the specification;
    - [Express]  requests, responses, middleware in continuation-passing
                 style and the dispatch of a route's handler stack;
    - [App]      [index.ts] itself;
    - [Spec]     the pipeline as the specification words it, to be compared
                 with [App]. *)

From Stdlib Require Import String Ascii List ZArith Bool Lia DecimalString.
Import ListNotations.
Open Scope string_scope.

#[local] Set Warnings "-register-all".

(* ================================================================== *)
(** * JavaScript values and builtins *)
(* ================================================================== *)

Module JS.

(** The values a parsed JSON body, a parsed query string or the path
    parameters can hold.  An object is an association list: the order of
    its keys is the order [JSON.stringify] prints them in.  Numbers are
    restricted to integers; they print as JavaScript prints them as long
    as they are safe integers (below 2^53 in magnitude). *)
Inductive value : Type :=
| VNull
| VBool (b : bool)
| VNum (n : Z)
| VStr (s : string)
| VArr (items : list value)
| VObj (props : list (string * value)).

(** Own-property lookup, [x[key]] guarded by [hasOwnProperty]; the own
    keys of arrays and strings, and inherited keys, are not looked at. *)
Fixpoint lookup (key : string) (props : list (string * value)) : option value :=
  match props with
  | [] => None
  | (k, v) :: rest => if String.eqb k key then Some v else lookup key rest
  end.

Definition get (x : value) (key : string) : option value :=
  match x with
  | VObj props => lookup key props
  | _ => None
  end.

(** The double quote character, and a string in double quotes. *)
Definition dquote : string := String "034"%char EmptyString.

Definition quoted (s : string) : string := dquote ++ s ++ dquote.

Definition hex_digit (n : nat) : string :=
  match n with
  | 0 => "0" | 1 => "1" | 2 => "2" | 3 => "3" | 4 => "4" | 5 => "5"
  | 6 => "6" | 7 => "7" | 8 => "8" | 9 => "9" | 10 => "a" | 11 => "b"
  | 12 => "c" | 13 => "d" | 14 => "e" | _ => "f"
  end.

(** [QuoteJSONString]: one code unit. *)
Definition escape_char (c : ascii) : string :=
  let n := nat_of_ascii c in
  if Nat.eqb n 34 then "\" ++ dquote
  else if Nat.eqb n 92 then "\\"
  else if Nat.eqb n 8 then "\b"
  else if Nat.eqb n 9 then "\t"
  else if Nat.eqb n 10 then "\n"
  else if Nat.eqb n 12 then "\f"
  else if Nat.eqb n 13 then "\r"
  else if Nat.ltb n 32 then "\u00" ++ hex_digit (n / 16) ++ hex_digit (n mod 16)
  else String c EmptyString.

Fixpoint escape (s : string) : string :=
  match s with
  | EmptyString => EmptyString
  | String c rest => escape_char c ++ escape rest
  end.

Definition quote_json (s : string) : string := dquote ++ escape s ++ dquote.

(** [String(n)], for a safe integer. *)
Definition number_to_string (n : Z) : string :=
  NilZero.string_of_int (Z.to_int n).

(** [JSON.stringify] on the values above. *)
Fixpoint JSON_stringify (v : value) : string :=
  match v with
  | VNull => "null"
  | VBool true => "true"
  | VBool false => "false"
  | VNum n => number_to_string n
  | VStr s => quote_json s
  | VArr items => "[" ++ String.concat "," (map JSON_stringify items) ++ "]"
  | VObj props =>
      "{" ++ String.concat ","
               (map (fun '(k, x) => quote_json k ++ ":" ++ JSON_stringify x) props)
          ++ "}"
  end.

(** [String.prototype.endsWith(searchString)] with the default end
    position: the last [searchLength] code units are compared. *)
Definition endsWith (s searchString : string) : bool :=
  let len := String.length s in
  let searchLength := String.length searchString in
  if Nat.ltb len searchLength then false
  else String.eqb (substring (len - searchLength) searchLength s) searchString.

End JS.
Import JS.

(* ================================================================== *)
(** * The runtypes validation engine *)
(* ================================================================== *)

Module RT.

(** Modelled from the spec: the primitive a [Literal] descriptor holds
    ([index.ts] only builds string literals). *)
Inductive LiteralBase : Type :=
| LNull
| LBool (b : bool)
| LNum (n : Z)
| LStr (s : string).

(** Modelled from the spec: the runtypes library is a dependency of the
    repository and none of it is under the sources; [index.ts] only builds
    descriptors with [RT.Record], [RT.Literal], [RT.Union] and [RT.Guard]
    and calls [check] on them.  The descriptor is the closed variant of
    section 3.  A guard is an opaque predicate that returns a boolean or
    faults ([None]). *)
Inductive Runtype : Type :=
| Record (fields : list (string * Runtype))
| Literal (valueBase : LiteralBase)
| Union (alternatives : list Runtype)
| Guard (guard : value -> option bool).

(** Modelled from the spec: validation gives the conforming value, or a
    mapping from field name (or the empty name) to a reason. *)
Inductive ValidationOutcome : Type :=
| Valid (v : value)
| Invalid (details : list (string * string)).

(** Modelled from the spec: the failure [check] throws, as the error
    envelope of section 4.4 shows it. *)
Record ValidationError : Type := mkValidationError
  { name : string;
    code : string;
    details : list (string * string) }.

(** Modelled from the spec: what [check] completes with, the value or the
    failure thrown ([index.ts] calls it inside [try] and reads the failure
    in [catch]). *)
Inductive completion (A : Type) : Type :=
| Return (a : A)
| Throw (err : ValidationError).
Arguments Return {A} a.
Arguments Throw {A} err.

(** Modelled from the spec: the type name a reason gives to the observed
    value (``but was string''). *)
Definition typeOf (x : value) : string :=
  match x with
  | VNull => "null"
  | VBool _ => "boolean"
  | VNum _ => "number"
  | VStr _ => "string"
  | VArr _ => "array"
  | VObj _ => "object"
  end.

(** Modelled from the spec: the text of a literal inside backquotes, as in
    [Expected literal `bar`, but was `random`]. *)
Definition literal_text (l : LiteralBase) : string :=
  match l with
  | LNull => "null"
  | LBool true => "true"
  | LBool false => "false"
  | LNum n => number_to_string n
  | LStr s => s
  end.

(** Modelled from the spec: the summary of a descriptor in a reason.  The
    scenarios of section 8 fix it for literals (the string in double
    quotes), guards ([unknown]) and unions (the alternatives joined by a
    bar); the specification does not say how a record is summarised: its
    fields are listed in braces. *)
Fixpoint show (rt : Runtype) : string :=
  match rt with
  | Record fields =>
      match fields with
      | [] => "{}"
      | _ => "{ " ++ String.concat " "
                       (map (fun '(k, sub) => k ++ ": " ++ show sub ++ ";") fields)
                  ++ " }"
      end
  | Literal (LStr s) => quoted s
  | Literal l => literal_text l
  | Union alternatives => String.concat " | " (map show alternatives)
  | Guard _ => "unknown"
  end.

(** Modelled from the spec: a literal accepts the value equal to it in
    type and value ([===]). *)
Definition strict_eq (l : LiteralBase) (x : value) : bool :=
  match l, x with
  | LNull, VNull => true
  | LBool b, VBool b' => Bool.eqb b b'
  | LNum n, VNum n' => Z.eqb n n'
  | LStr s, VStr s' => String.eqb s s'
  | _, _ => false
  end.

(** Modelled from the spec (section 4.1, Literal): a value of the literal's
    own type family is quoted in the reason, a value of another type is
    named by its type. *)
Definition literal_reason (l : LiteralBase) (x : value) : string :=
  match l, x with
  | LBool _, VBool b' =>
      "Expected literal `" ++ literal_text l ++ "`, but was `" ++ literal_text (LBool b') ++ "`"
  | LNum _, VNum n' =>
      "Expected literal `" ++ literal_text l ++ "`, but was `" ++ literal_text (LNum n') ++ "`"
  | LStr _, VStr s' =>
      "Expected literal `" ++ literal_text l ++ "`, but was `" ++ s' ++ "`"
  | _, _ => "Expected " ++ show (Literal l) ++ ", but was " ++ typeOf x
  end.

(** Modelled from the spec: the three other reasons, for a field the input
    lacks, for a guard that does not hold, and for a union none of whose
    alternatives accepts. *)
Definition missing_reason (sub : Runtype) : string :=
  "Expected " ++ show sub ++ ", but was missing".

Definition constraint_reason : string := "Failed constraint check for unknown".

Definition type_reason (rt : Runtype) (x : value) : string :=
  "Expected " ++ show rt ++ ", but was " ++ typeOf x.

(** Modelled from the spec: a failure of a field's descriptor is attributed
    to the field; a failure that already names a field of a nested record
    keeps that name (the innermost field, not a dotted path). *)
Definition attribute (key : string) (d : list (string * string)) : list (string * string) :=
  map (fun '(k, reason) => (if String.eqb k "" then key else k, reason)) d.

(** Modelled from the spec: the fields of a record, in declaration order,
    stopping at the first one that fails; on success the declared fields
    only.  A value that is not an object lacks every key.  The library
    itself checks every field (see [Library.check_fields]); the two agree
    on records of one field, which are those [index.ts] declares. *)
Definition validate_fields (validate : Runtype -> value -> ValidationOutcome) (x : value)
  : list (string * Runtype) -> list (string * string) + list (string * value) :=
  fix go (fields : list (string * Runtype)) :=
    match fields with
    | [] => inr []
    | (key, sub) :: rest =>
        match get x key with
        | None => inl [(key, missing_reason sub)]
        | Some xv =>
            match validate sub xv with
            | Invalid d => inl (attribute key d)
            | Valid v =>
                match go rest with
                | inl d => inl d
                | inr props => inr ((key, v) :: props)
                end
            end
        end
    end.

(** Modelled from the spec: the alternatives of a union, in listed order;
    the first that accepts the value wins. *)
Definition validate_alternatives (validate : Runtype -> value -> ValidationOutcome) (x : value)
  : list Runtype -> option value :=
  fix go (alternatives : list Runtype) :=
    match alternatives with
    | [] => None
    | alt :: rest =>
        match validate alt x with
        | Valid v => Some v
        | Invalid _ => go rest
        end
    end.

(** Modelled from the spec: [validate(descriptor, value)] of section 4.1.
    Where section 4.1 and the scenarios of section 8 differ, on the reason
    of a union none of whose alternatives match, the scenario is followed:
    it is the output the README of the repository records for
    [/bar/random].  In the [Guard] case a predicate that faults is refused
    like one that returns false, as section 4.1 words it; the library
    lets the fault escape (see [Library.guard_check]); [isEmail] never
    faults. *)
Fixpoint validate (rt : Runtype) (x : value) : ValidationOutcome :=
  match rt with
  | Record fields =>
      match validate_fields validate x fields with
      | inl d => Invalid d
      | inr props => Valid (VObj props)
      end
  | Literal l =>
      if strict_eq l x then Valid x else Invalid [("", literal_reason l x)]
  | Union alternatives =>
      match validate_alternatives validate x alternatives with
      | Some v => Valid v
      | None => Invalid [("", type_reason rt x)]
      end
  | Guard guard =>
      match guard x with
      | Some true => Valid x
      | Some false | None => Invalid [("", constraint_reason)]
      end
  end.

(** Modelled from the spec: the error of the envelope of section 4.4. *)
Definition validation_error (d : list (string * string)) : ValidationError :=
  {| name := "ValidationError"; code := "CONTENT_INCORRECT"; details := d |}.

(** Modelled from the spec: [runtype.check(x)] returns the validated value
    or throws the failure. *)
Definition check (rt : Runtype) (x : value) : completion value :=
  match validate rt x with
  | Valid v => Return v
  | Invalid d => Throw (validation_error d)
  end.

(** Modelled from the spec: the properties of the error that [res.send]
    serialises, in the order the README prints them. *)
Definition error_value (err : ValidationError) : value :=
  VObj [("name", VStr (name err));
        ("code", VStr (code err));
        ("details", VObj (map (fun '(k, reason) => (k, VStr reason)) (details err)))].

(** A declared field is present in [x] and its value validates. *)
Definition field_passes (x : value) (f : string * Runtype) : Prop :=
  exists xv v, get x (fst f) = Some xv /\ validate (snd f) xv = Valid v.

(** The descriptor does not accept [x]. *)
Definition rejects (x : value) (rt : Runtype) : Prop :=
  exists d, validate rt x = Invalid d.

End RT.
Import RT.

(* ================================================================== *)
(** * Express: requests, responses and the handler stack of a route *)
(* ================================================================== *)

Module Express.

(** The three slices of a request the application reads. *)
Record Request : Type := mkRequest
  { body : value;
    query : value;
    params : value }.

(** The response under construction; [sent] is the argument of
    [res.send] or [res.json] once one of them was called. *)
Record Response : Type := mkResponse
  { statusCode : Z;
    sent : option value }.

(** The objects a handler can touch: the shared request and response, and
    the lines written with [console.log]. *)
Record World : Type := mkWorld
  { req : Request;
    res : Response;
    console : list string }.

(** [next] runs the rest of the handler stack in the current world. *)
Definition NextFunction : Type := World -> World.

Definition RequestHandler : Type := World -> NextFunction -> World.

(** [res.status(code)]. *)
Definition status (c : Z) (w : World) : World :=
  {| req := req w;
     res := {| statusCode := c; sent := sent (res w) |};
     console := console w |}.

(** [res.send(obj)]. *)
Definition send (obj : value) (w : World) : World :=
  {| req := req w;
     res := {| statusCode := statusCode (res w); sent := Some obj |};
     console := console w |}.

(** [res.json(obj)]. *)
Definition json (obj : value) (w : World) : World := send obj w.

(** [console.log(line)]. *)
Definition console_log (line : string) (w : World) : World :=
  {| req := req w; res := res w; console := console w ++ [line] |}.

(** The handlers given to [app.post(path, ...)], run in the order they were
    attached: each one receives a [next] that runs those after it.  [out] is
    where Express goes when the last handler calls [next]. *)
Fixpoint dispatch (stack : list RequestHandler) (out : NextFunction) (w : World) : World :=
  match stack with
  | [] => out w
  | handler :: rest => handler w (dispatch rest out)
  end.

(** The world a request arrives in: nothing sent, status 200, and the
    lines the process has logged while serving earlier requests. *)
Definition arriving (r : Request) (log : list string) : World :=
  {| req := r; res := {| statusCode := 200; sent := None |}; console := log |}.

(** The first request of the process. *)
Definition incoming (r : Request) : World := arriving r [].

(** The text on the wire. *)
Definition wire (w : World) : option string :=
  option_map JSON_stringify (sent (res w)).

End Express.
Import Express.

(* ================================================================== *)
(** * index.ts *)
(* ================================================================== *)

Module App.

Definition isEmail (email : value) : bool :=
  match email with
  | VStr s => endsWith s "@gmail.com"
  | _ => false
  end.

Definition PayloadRuntype : Runtype :=
  RT.Record [("email", RT.Guard (fun email => Some (isEmail email)))].

Definition QueryParamRuntype : Runtype :=
  RT.Record [("foo", RT.Literal (LStr "bar"))].

Definition PathParamRuntype : Runtype :=
  RT.Record [("id", RT.Union [RT.Literal (LStr "1"); RT.Literal (LStr "2")])].

Definition payloadLogger (payload : value) : World -> World :=
  console_log ("Received payload: " ++ JSON_stringify payload).

Definition queryLogger (query : value) : World -> World :=
  console_log ("Received query params: " ++ JSON_stringify query).

Definition paramsLogger (params : value) : World -> World :=
  console_log ("Received path params: " ++ JSON_stringify params).

(** The [catch] block the three middleware functions share:
    [res.status(400).send({ error: err })]. *)
Definition reject (err : ValidationError) (w : World) : World :=
  send (VObj [("error", error_value err)]) (status 400 w).

(** The value [check] returns is dropped, and [next] is called on the
    request as it came in. *)
Definition bodyTypeParserMiddleware (bodyParserRuntype : Runtype) : RequestHandler :=
  fun w next =>
    match check bodyParserRuntype (body (req w)) with
    | Return _ => next w
    | Throw err => reject err w
    end.

Definition queryTypeParserMiddleware (queryParserRuntype : Runtype) : RequestHandler :=
  fun w next =>
    match check queryParserRuntype (query (req w)) with
    | Return _ => next w
    | Throw err => reject err w
    end.

Definition pathParamsParserMiddleware (pathParamsParserRuntype : Runtype) : RequestHandler :=
  fun w next =>
    match check pathParamsParserRuntype (params (req w)) with
    | Return _ => next w
    | Throw err => reject err w
    end.

(** The route handler of [/bar/:id]. *)
Definition barHandler : RequestHandler :=
  fun w _ =>
    let payload := body (req w) in
    let query := query (req w) in
    let params := params (req w) in
    let w := payloadLogger payload w in
    let w := queryLogger query w in
    let w := paramsLogger params w in
    json (VObj [("payload", payload); ("query", query); ("params", params)]) w.

(** [app.post('/bar/:id', ...)]. *)
Definition bar : NextFunction -> World -> World :=
  dispatch [ bodyTypeParserMiddleware PayloadRuntype;
             queryTypeParserMiddleware QueryParamRuntype;
             pathParamsParserMiddleware PathParamRuntype;
             barHandler ].

End App.
Import App.

(* ================================================================== *)
(** * The pipeline in the words of the specification *)
(* ================================================================== *)

Module Spec.

(** The slice selector of a stage. *)
Inductive Slice : Type := SBody | SQuery | SPathParams.

(** A stage binds a slice to a descriptor. *)
Record PipelineStage : Type := mkStage
  { selector : Slice;
    descriptor : Runtype }.

(** What [run] and [dispatch] return (sections 4.2 and 4.3). *)
Inductive StageOutcome : Type :=
| Continue
| Halt (failure : list (string * string)).

Inductive PipelineOutcome : Type :=
| AllPassed
| Rejected (failure : list (string * string)) (at_stage : nat).

Definition select (s : Slice) (ctx : Request) : value :=
  match s with
  | SBody => body ctx
  | SQuery => query ctx
  | SPathParams => params ctx
  end.

Definition write (s : Slice) (v : value) (ctx : Request) : Request :=
  match s with
  | SBody => {| body := v; query := query ctx; params := params ctx |}
  | SQuery => {| body := body ctx; query := v; params := params ctx |}
  | SPathParams => {| body := body ctx; query := query ctx; params := v |}
  end.

(** Section 4.2 in its own words: on [Valid] the validated value is
    written back under the slice it was read from. *)
Definition run (stage : PipelineStage) (ctx : Request) : StageOutcome * Request :=
  match validate (descriptor stage) (select (selector stage) ctx) with
  | Valid v => (Continue, write (selector stage) v ctx)
  | Invalid d => (Halt d, ctx)
  end.

(** Section 4.3: the stages in the order they were attached, stopping at
    the first [Halt]. *)
Fixpoint dispatch_from (i : nat) (stages : list PipelineStage) (ctx : Request)
  : PipelineOutcome * Request :=
  match stages with
  | [] => (AllPassed, ctx)
  | stage :: rest =>
      match run stage ctx with
      | (Continue, ctx') => dispatch_from (S i) rest ctx'
      | (Halt d, ctx') => (Rejected d i, ctx')
      end
  end.

Definition dispatch (stages : list PipelineStage) (ctx : Request) : PipelineOutcome * Request :=
  dispatch_from 0 stages ctx.

(** The envelope of section 4.4. *)
Definition envelope (d : list (string * string)) : value :=
  VObj [("error",
         VObj [("name", VStr "ValidationError");
               ("code", VStr "CONTENT_INCORRECT");
               ("details", VObj (map (fun '(k, reason) => (k, VStr reason)) d))])].

(** The middleware of [index.ts] that a stage stands for. *)
Definition middleware (stage : PipelineStage) : RequestHandler :=
  match selector stage with
  | SBody => bodyTypeParserMiddleware (descriptor stage)
  | SQuery => queryTypeParserMiddleware (descriptor stage)
  | SPathParams => pathParamsParserMiddleware (descriptor stage)
  end.

(** The stages of [/bar/:id], in the order the route attaches them. *)
Definition bar_stages : list PipelineStage :=
  [ {| selector := SBody; descriptor := PayloadRuntype |};
    {| selector := SQuery; descriptor := QueryParamRuntype |};
    {| selector := SPathParams; descriptor := PathParamRuntype |} ].

(** The slice of the stage validates. *)
Definition stage_passes (ctx : Request) (stage : PipelineStage) : Prop :=
  exists v, validate (descriptor stage) (select (selector stage) ctx) = Valid v.

End Spec.
Import Spec.

(* ================================================================== *)
(** * The requests of the README *)
(* ================================================================== *)

Module Scenarios.

Definition valid_body : value := VObj [("email", VStr "test@gmail.com")].
Definition valid_query : value := VObj [("foo", VStr "bar")].
Definition valid_params : value := VObj [("id", VStr "1")].

Definition valid_request : Request :=
  {| body := valid_body; query := valid_query; params := valid_params |}.

(** The text of the response to [valid_request]. *)
Definition valid_response_text : string :=
  "{" ++ quoted "payload" ++ ":{" ++ quoted "email" ++ ":" ++ quoted "test@gmail.com" ++ "},"
      ++ quoted "query" ++ ":{" ++ quoted "foo" ++ ":" ++ quoted "bar" ++ "},"
      ++ quoted "params" ++ ":{" ++ quoted "id" ++ ":" ++ quoted "1" ++ "}}".

(** A body that conforms and carries a field the descriptor does not
    declare. *)
Definition body_with_excess : value :=
  VObj [("email", VStr "test@gmail.com"); ("admin", VBool true)].

Definition request_with_excess : Request :=
  {| body := body_with_excess; query := valid_query; params := valid_params |}.

Definition wrong_email_body : value := VObj [("email", VStr "test@random.com")].
Definition wrong_query : value := VObj [("foo", VStr "random")].
Definition missing_query : value := VObj [("random", VStr "bar")].
Definition wrong_params : value := VObj [("id", VStr "random")].

(** Body, query and path parameters all wrong at once. *)
Definition all_wrong_request : Request :=
  {| body := wrong_email_body; query := wrong_query; params := wrong_params |}.

(** The smallest address [isEmail] accepts. *)
Definition bare_domain_body : value := VObj [("email", VStr "@gmail.com")].

Definition bare_domain_request : Request :=
  {| body := bare_domain_body; query := valid_query; params := valid_params |}.

(** The text of an error response whose details hold one field; [reason]
    is the reason as it is on the wire, quotes escaped. *)
Definition error_response_text (field reason : string) : string :=
  "{" ++ quoted "error" ++ ":{" ++ quoted "name" ++ ":" ++ quoted "ValidationError" ++ ","
      ++ quoted "code" ++ ":" ++ quoted "CONTENT_INCORRECT" ++ ","
      ++ quoted "details" ++ ":{" ++ quoted field ++ ":" ++ quoted reason ++ "}}}".

(** The status and the text the route answers a first request with. *)
Definition answer (b q p : value) : Z * option string :=
  let w := bar (fun w => w) (incoming {| body := b; query := q; params := p |}) in
  (statusCode (res w), wire w).

Definition one_or_two : Runtype := RT.Union [RT.Literal (LStr "1"); RT.Literal (LStr "2")].

End Scenarios.
Import Scenarios.

(* ================================================================== *)
(** * index.ts: the route that parses inside its handler *)
(* ================================================================== *)

Module Approach1.

(** [app.post('/foo', ...)]: both checks, the two loggers and [res.json]
    sit in one [try]; the handler works with the values [check] returned.
    The path parameters are not read. *)
Definition fooHandler : RequestHandler :=
  fun w _ =>
    match check PayloadRuntype (body (req w)) with
    | Throw err => reject err w
    | Return payload =>
        match check QueryParamRuntype (query (req w)) with
        | Throw err => reject err w
        | Return query =>
            let w := payloadLogger payload w in
            let w := queryLogger query w in
            json (VObj [("payload", payload); ("query", query)]) w
        end
    end.

Definition foo : NextFunction -> World -> World :=
  Express.dispatch [fooHandler].

End Approach1.

(* ================================================================== *)
(** * index.ts as it was with two middleware functions *)
(* ================================================================== *)

Module TwoStage.

(** The body and query middleware functions are those of [App]; the query
    logger had another prefix, and the route had no path parameter. *)
Definition queryLogger (query : value) : World -> World :=
  console_log ("Received params: " ++ JSON_stringify query).

Definition barHandler : RequestHandler :=
  fun w _ =>
    let payload := body (req w) in
    let query := query (req w) in
    let w := payloadLogger payload w in
    let w := queryLogger query w in
    json (VObj [("payload", payload); ("query", query)]) w.

(** [app.post('/bar', ...)]. *)
Definition bar : NextFunction -> World -> World :=
  Express.dispatch [ bodyTypeParserMiddleware PayloadRuntype;
                     queryTypeParserMiddleware QueryParamRuntype;
                     barHandler ].

End TwoStage.

(* ================================================================== *)
(** * index.ts as it was with one middleware function *)
(* ================================================================== *)

Module Combined.

(** One [try] around both checks: the query is checked only when the body
    passed, and [next] is called only when both passed. *)
Definition typeParserMiddleware (bodyParserRuntype queryParserRuntype : Runtype)
  : RequestHandler :=
  fun w next =>
    match check bodyParserRuntype (body (req w)) with
    | Throw err => reject err w
    | Return _ =>
        match check queryParserRuntype (query (req w)) with
        | Throw err => reject err w
        | Return _ => next w
        end
    end.

Definition paramsLogger (params : value) : World -> World :=
  console_log ("Received params: " ++ JSON_stringify params).

(** The handler answered with the payload alone. *)
Definition barHandler : RequestHandler :=
  fun w _ =>
    let payload := body (req w) in
    let params := query (req w) in
    let w := payloadLogger payload w in
    let w := paramsLogger params w in
    json payload w.

(** [app.post('/bar', ...)]. *)
Definition bar : NextFunction -> World -> World :=
  Express.dispatch [ typeParserMiddleware PayloadRuntype QueryParamRuntype;
                     barHandler ].

End Combined.

(* ================================================================== *)
(** * More requests *)
(* ================================================================== *)

Module Requests.

(** A request that [/foo] and the first two stages of [/bar/:id] accept,
    with a path parameter the third stage refuses. *)
Definition wrong_params_request : Request :=
  {| body := valid_body; query := valid_query; params := wrong_params |}.

(** Only the query is wrong. *)
Definition wrong_query_request : Request :=
  {| body := valid_body; query := wrong_query; params := valid_params |}.

(** Only the body is wrong. *)
Definition wrong_body_request : Request :=
  {| body := wrong_email_body; query := valid_query; params := valid_params |}.

Definition body_stage : PipelineStage :=
  {| selector := SBody; descriptor := PayloadRuntype |}.

Definition query_stage : PipelineStage :=
  {| selector := SQuery; descriptor := QueryParamRuntype |}.

Definition params_stage : PipelineStage :=
  {| selector := SPathParams; descriptor := PathParamRuntype |}.

(** The text in front of the details of every error response, and the
    text of an error response with one detail. *)
Definition error_prefix : string :=
  "{" ++ quoted "error" ++ ":{" ++ quoted "name" ++ ":" ++ quoted "ValidationError" ++ ","
      ++ quoted "code" ++ ":" ++ quoted "CONTENT_INCORRECT" ++ ","
      ++ quoted "details" ++ ":{".

End Requests.
Import Requests.

(* ================================================================== *)
(** * The runtypes library as it runs: records and guards *)
(* ================================================================== *)

Module Library.

(** Modelled on the runtypes library (version 6, whose error shape the
    README prints); it is a dependency of the repository and none of it is
    under the sources.  [RT] follows the specification.  This module
    follows the library where the two part: a record checks every declared
    field and reports every one that fails, the details of a nested record
    are nested under its field, a value that validates is returned as it
    is, and a fault of a guard's predicate is caught nowhere in the
    library.

    What the error holds under a field: the message of the field's
    failure, or the details of a nested record. *)
Inductive detail : Type :=
| Reason (message : string)
| Nested (fields : list (string * detail)).

(** The result of validating: the value itself; a failure, with its code
    and what is reported of it (its details when it has some, its message
    otherwise); or the fault of a predicate, which escapes. *)
Inductive result : Type :=
| Success (v : value)
| Failure (code : string) (report : detail)
| Escapes.




(** [String(x)], with an array joined as [Array.prototype.join] does. *)
Fixpoint ToString (x : value) : string :=
  match x with
  | VNull => "null"
  | VBool true => "true"
  | VBool false => "false"
  | VNum n => number_to_string n
  | VStr s => s
  | VArr items =>
      String.concat ","
        (map (fun item => match item with VNull => "" | _ => ToString item end) items)
  | VObj _ => "[object Object]"
  end.

(** The text of the received value in the message of a literal. *)
Definition received (x : value) : string :=
  match x with
  | VArr items => String.concat "," (map ToString items)
  | _ => ToString x
  end.

(** A guard: the predicate holds, does not hold, or faults. *)
Definition guard_check (guard : value -> option bool) (x : value) : result :=
  match guard x with
  | Some true => Success x
  | Some false => Failure "CONSTRAINT_FAILED" (Reason constraint_reason)
  | None => Escapes
  end.

(** The declared fields of a record, all of them, in turn: the entries of
    those that fail, or [None] when the check of a field escaped. *)
Definition check_fields (validate : Runtype -> value -> result) (x : value)
  : list (string * Runtype) -> option (list (string * detail)) :=
  fix go (fields : list (string * Runtype)) :=
    match fields with
    | [] => Some []
    | (key, sub) :: rest =>
        match get x key with
        | None => option_map (cons (key, Reason (missing_reason sub))) (go rest)
        | Some xv =>
            match validate sub xv with
            | Escapes => None
            | Success _ => go rest
            | Failure _ report => option_map (cons (key, report)) (go rest)
            end
        end
    end.

(** A record: [null] and, when fields are declared, every value that is
    not an object are refused for their type; otherwise the fields are
    checked and the value is returned as it is when none fails. *)
Definition record_check (validate : Runtype -> value -> result) (rt : Runtype)
  (fields : list (string * Runtype)) (x : value) : result :=
  match x with
  | VNull => Failure "TYPE_INCORRECT" (Reason (type_reason rt x))
  | VBool _ | VNum _ | VStr _ =>
      match fields with
      | [] => Success x
      | _ => Failure "TYPE_INCORRECT" (Reason (type_reason rt x))
      end
  | VArr _ | VObj _ =>
      match check_fields validate x fields with
      | None => Escapes
      | Some [] => Success x
      | Some d => Failure "CONTENT_INCORRECT" (Nested d)
      end
  end.

(** The alternatives of a union in turn, the first success winning. *)
Definition check_alternatives (validate : Runtype -> value -> result) (x : value)
  : list Runtype -> option bool :=
  fix go (alternatives : list Runtype) :=
    match alternatives with
    | [] => Some false
    | alt :: rest =>
        match validate alt x with
        | Escapes => None
        | Success _ => Some true
        | Failure _ _ => go rest
        end
    end.

Fixpoint validate (rt : Runtype) (x : value) : result :=
  match rt with
  | Record fields => record_check validate rt fields x
  | Literal l =>
      if strict_eq l x then Success x
      else Failure "VALUE_INCORRECT"
             (Reason ("Expected literal `" ++ literal_text l ++ "`, but was `"
                        ++ received x ++ "`"))
  | Union alternatives =>
      match check_alternatives validate x alternatives with
      | None => Escapes
      | Some true => Success x
      | Some false => Failure "TYPE_INCORRECT" (Reason (type_reason rt x))
      end
  | Guard guard => guard_check guard x
  end.

(** What [check] throws: the validation error, or the fault of a
    predicate as it was thrown. *)
Inductive thrown : Type :=
| ValidationFailure (code : string) (report : detail)
| Fault.

(** [runtype.check(x)]. *)
Definition check (rt : Runtype) (x : value) : value + thrown :=
  match validate rt x with
  | Success v => inl v
  | Failure code report => inr (ValidationFailure code report)
  | Escapes => inr Fault
  end.

Fixpoint detail_value (d : detail) : value :=
  match d with
  | Reason message => VStr message
  | Nested fields => VObj (map (fun '(key, d') => (key, detail_value d')) fields)
  end.

(** What [res.send] serialises of the thing caught: the name, the code and
    the details, when there are details, of a validation error; nothing
    of a fault, taken to be an [Error], which has no enumerable property
    of its own. *)
Definition error_value (err : thrown) : value :=
  match err with
  | ValidationFailure code (Nested fields) =>
      VObj [("name", VStr "ValidationError"); ("code", VStr code);
            ("details", detail_value (Nested fields))]
  | ValidationFailure code (Reason _) =>
      VObj [("name", VStr "ValidationError"); ("code", VStr code)]
  | Fault => VObj []
  end.

(** [bodyTypeParserMiddleware] of [index.ts], on the library's [check]:
    whatever is thrown is caught and sent with status 400. *)
Definition bodyTypeParserMiddleware (bodyParserRuntype : Runtype) : RequestHandler :=
  fun w next =>
    match check bodyParserRuntype (body (req w)) with
    | inl _ => next w
    | inr err => send (VObj [("error", error_value err)]) (status 400 w)
    end.





End Library.

(* ================================================================== *)
(** * Numbers that print as they are *)
(* ================================================================== *)

Module Numbers.

(** The integers a JavaScript number holds exactly, which [JSON.stringify]
    prints digit for digit. *)
Definition safe_integer (n : Z) : bool :=
  (Z.leb (- (2 ^ 53 - 1)) n && Z.leb n (2 ^ 53 - 1))%Z.

(** Every number inside the value is a safe integer. *)
Fixpoint safe_numbers (x : value) : bool :=
  match x with
  | VNum n => safe_integer n
  | VArr items => forallb safe_numbers items
  | VObj props => forallb (fun '(_, v) => safe_numbers v) props
  | _ => true
  end.

End Numbers.
Import Numbers.

(* ================================================================== *)
(** * Strings: [endsWith] *)
(* ================================================================== *)

Section Strings.

Lemma substring_whole (t : string) : substring 0 (String.length t) t = t.
Proof.
  induction t as [|c t IH]; simpl; [reflexivity | now rewrite IH].
Qed.

Lemma substring_skip (p t : string) :
  substring (String.length p) (String.length t) (p ++ t) = t.
Proof.
  induction p as [|c p IH]; simpl.
  - apply substring_whole.
  - exact IH.
Qed.

Lemma substring_split (n m : nat) (s : string) :
  n + m = String.length s -> s = substring 0 n s ++ substring n m s.
Proof.
  revert m s; induction n as [|n IH]; intros m s Hlen.
  - simpl in Hlen; subst m.
    rewrite substring_whole.
    destruct s; reflexivity.
  - destruct s as [|c s]; simpl in Hlen; [discriminate|].
    injection Hlen as Hlen.
    simpl. f_equal. now apply IH.
Qed.

Lemma string_length_app (p t : string) :
  String.length (p ++ t) = String.length p + String.length t.
Proof.
  induction p as [|c p IH]; simpl; [reflexivity | now rewrite IH].
Qed.

Lemma endsWith_suffix (s t : string) :
  endsWith s t = true <-> exists p, s = p ++ t.
Proof.
  unfold endsWith; split.
  - destruct (Nat.ltb_spec (String.length s) (String.length t)) as [Hlt|Hge];
      [discriminate|].
    intros Heq; apply String.eqb_eq in Heq.
    exists (substring 0 (String.length s - String.length t) s).
    assert (Hsplit := substring_split (String.length s - String.length t)
                        (String.length t) s).
    rewrite Heq in Hsplit. apply Hsplit. lia.
  - intros [p ->].
    rewrite string_length_app.
    destruct (Nat.ltb_spec (String.length p + String.length t) (String.length t));
      [lia|].
    replace (String.length p + String.length t - String.length t)
      with (String.length p) by lia.
    rewrite substring_skip. apply String.eqb_refl.
Qed.

End Strings.

(* ================================================================== *)
(** * The validation engine *)
(* ================================================================== *)

Section Engine.

(** Induction on a descriptor, with the hypothesis for every field of a
    record and every alternative of a union. *)
Lemma Runtype_induction (P : Runtype -> Prop)
  (HRecord : forall fields, Forall (fun f => P (snd f)) fields -> P (Record fields))
  (HLiteral : forall l, P (Literal l))
  (HUnion : forall alternatives, Forall P alternatives -> P (Union alternatives))
  (HGuard : forall guard, P (Guard guard)) :
  forall rt, P rt.
Proof.
  fix IH 1. intros [fields | l | alternatives | guard].
  - apply HRecord.
    induction fields as [|[k sub] rest IHrest]; constructor; [apply IH | exact IHrest].
  - apply HLiteral.
  - apply HUnion.
    induction alternatives as [|alt rest IHrest]; constructor; [apply IH | exact IHrest].
  - apply HGuard.
Qed.

Lemma validate_Record (fields : list (string * Runtype)) (x : value) :
  validate (Record fields) x =
  match validate_fields validate x fields with
  | inl d => Invalid d
  | inr props => Valid (VObj props)
  end.
Proof. reflexivity. Qed.

Lemma validate_Union (alternatives : list Runtype) (x : value) :
  validate (Union alternatives) x =
  match validate_alternatives validate x alternatives with
  | Some v => Valid v
  | None => Invalid [("", type_reason (Union alternatives) x)]
  end.
Proof. reflexivity. Qed.

Lemma attribute_singleton (key k reason : string) :
  exists k', attribute key [(k, reason)] = [(k', reason)].
Proof. simpl. eexists; reflexivity. Qed.

(** The first field that fails, the fields before it having passed. *)
Lemma validate_fields_failure (x : value) (fields : list (string * Runtype))
  (d : list (string * string)) :
  validate_fields validate x fields = inl d ->
  exists before key sub after,
    fields = (before ++ (key, sub) :: after)%list /\
    Forall (field_passes x) before /\
    ((get x key = None /\ d = [(key, missing_reason sub)]) \/
     (exists xv d', get x key = Some xv /\
                    validate sub xv = Invalid d' /\ d = attribute key d')).
Proof.
  induction fields as [|[key sub] rest IH]; simpl; [discriminate|].
  destruct (get x key) as [xv|] eqn:Hget.
  - destruct (validate sub xv) as [v|d'] eqn:Hsub.
    + destruct (validate_fields validate x rest) as [d0|props] eqn:Hrest;
        [|discriminate].
      intros [= <-].
      destruct (IH eq_refl) as (before & key' & sub' & after & -> & Hbefore & Hkey).
      exists ((key, sub) :: before), key', sub', after.
      split; [reflexivity|]. split; [|exact Hkey].
      constructor; [|exact Hbefore].
      exists xv, v. simpl. now split.
    + intros [= <-].
      exists [], key, sub, rest.
      split; [reflexivity|]. split; [constructor|].
      right. exists xv, d'. now repeat split.
  - intros [= <-].
    exists [], key, sub, rest.
    split; [reflexivity|]. split; [constructor|].
    left. now split.
Qed.

(** A record that validates: every declared field passed, and the value
    is made of the declared fields only. *)
Lemma validate_fields_success (x : value) (fields : list (string * Runtype))
  (props : list (string * value)) :
  validate_fields validate x fields = inr props ->
  Forall (field_passes x) fields /\ map fst props = map fst fields.
Proof.
  revert props; induction fields as [|[key sub] rest IH]; simpl; intros props.
  - intros [= <-]. split; [constructor | reflexivity].
  - destruct (get x key) as [xv|] eqn:Hget; [|discriminate].
    destruct (validate sub xv) as [v|d'] eqn:Hsub; [|discriminate].
    destruct (validate_fields validate x rest) as [d0|props'] eqn:Hrest;
      [discriminate|].
    intros [= <-].
    destruct (IH props' eq_refl) as [Hall Hkeys].
    split.
    + constructor; [|exact Hall]. exists xv, v. simpl. now split.
    + simpl. now rewrite Hkeys.
Qed.

(** The first alternative that accepts, those before it having rejected. *)
Lemma validate_alternatives_Some (x : value) (alternatives : list Runtype) (v : value) :
  validate_alternatives validate x alternatives = Some v <->
  exists before alt after,
    alternatives = (before ++ alt :: after)%list /\
    Forall (rejects x) before /\
    validate alt x = Valid v.
Proof.
  split.
  - induction alternatives as [|alt rest IH]; simpl; [discriminate|].
    destruct (validate alt x) as [v'|d] eqn:Halt.
    + intros [= ->]. exists [], alt, rest. now repeat split.
    + intros Hrest.
      destruct (IH Hrest) as (before & alt' & after & -> & Hbefore & Hv).
      exists (alt :: before), alt', after.
      split; [reflexivity|]. split; [|exact Hv].
      constructor; [now exists d | exact Hbefore].
  - intros (before & alt & after & -> & Hbefore & Hv).
    induction Hbefore as [|b before [d Hb] _ IH]; simpl.
    + now rewrite Hv.
    + now rewrite Hb.
Qed.

Lemma validate_alternatives_None (x : value) (alternatives : list Runtype) :
  validate_alternatives validate x alternatives = None <->
  Forall (rejects x) alternatives.
Proof.
  split.
  - induction alternatives as [|alt rest IH]; simpl; [constructor|].
    destruct (validate alt x) as [v|d] eqn:Halt; [discriminate|].
    intros Hrest. constructor; [now exists d | now apply IH].
  - induction 1 as [|alt rest [d Halt] _ IH]; simpl; [reflexivity|].
    now rewrite Halt.
Qed.

(** Every failure names one field and gives one reason. *)
Lemma validate_singleton (rt : Runtype) :
  forall x d, validate rt x = Invalid d -> exists k reason, d = [(k, reason)].
Proof.
  induction rt as [fields IH | l | alternatives _ | guard] using Runtype_induction;
    intros x d.
  - rewrite validate_Record.
    destruct (validate_fields validate x fields) as [d0|props] eqn:Hfields;
      [|discriminate].
    intros [= <-].
    destruct (validate_fields_failure _ _ _ Hfields)
      as (before & key & sub & after & -> & _ & [[_ ->] | (xv & d' & _ & Hsub & ->)]).
    + now eexists _, _.
    + apply Forall_app in IH as [_ IH]. inversion IH as [|? ? IHsub _]; subst.
      destruct (IHsub _ _ Hsub) as (k & reason & ->).
      destruct (attribute_singleton key k reason) as [k' ->].
      now exists k', reason.
  - simpl. destruct (strict_eq l x); [discriminate|].
    intros [= <-]. now eexists _, _.
  - rewrite validate_Union.
    destruct (validate_alternatives validate x alternatives); [discriminate|].
    intros [= <-]. now eexists _, _.
  - simpl. destruct (guard x) as [[|]|]; try discriminate;
      intros [= <-]; now eexists _, _.
Qed.

End Engine.

(* ================================================================== *)
(** * The middleware functions and the route *)
(* ================================================================== *)

Section Pipeline.

Lemma reject_req (err : ValidationError) (w : World) : req (reject err w) = req w.
Proof. reflexivity. Qed.

Lemma reject_console (err : ValidationError) (w : World) :
  console (reject err w) = console w.
Proof. reflexivity. Qed.

Lemma reject_res (d : list (string * string)) (w : World) :
  res (reject (validation_error d) w) = {| statusCode := 400; sent := Some (envelope d) |}.
Proof. reflexivity. Qed.

(** What each of the three middleware functions does, by the outcome of
    the validation of its slice. *)
Lemma middleware_cases (stage : PipelineStage) (w : World) (next : NextFunction) :
  middleware stage w next =
  match validate (descriptor stage) (select (selector stage) (req w)) with
  | Valid _ => next w
  | Invalid d => reject (validation_error d) w
  end.
Proof.
  destruct stage as [[| |] rt];
    unfold middleware, bodyTypeParserMiddleware, queryTypeParserMiddleware,
      pathParamsParserMiddleware, check; cbn [selector descriptor select];
    destruct (validate rt _); reflexivity.
Qed.

(** A stack of stages in front of a handler: if all pass, the handler
    runs in the world the request arrived in. *)
Lemma dispatch_all_pass (stages : list PipelineStage) (handler : RequestHandler)
  (out : NextFunction) (w : World) :
  Forall (stage_passes (req w)) stages ->
  Express.dispatch (map middleware stages ++ [handler])%list out w = handler w out.
Proof.
  induction 1 as [|stage rest [v Hv] _ IH]; cbn [map app Express.dispatch];
    [reflexivity|].
  rewrite middleware_cases, Hv. exact IH.
Qed.

(** The first stage that fails answers, whatever is attached after it. *)
Lemma dispatch_first_failure (before : list PipelineStage) (stage : PipelineStage)
  (rest : list RequestHandler) (out : NextFunction) (w : World)
  (d : list (string * string)) :
  Forall (stage_passes (req w)) before ->
  validate (descriptor stage) (select (selector stage) (req w)) = Invalid d ->
  Express.dispatch (map middleware before ++ middleware stage :: rest)%list out w
  = reject (validation_error d) w.
Proof.
  intros Hbefore Hstage.
  induction Hbefore as [|b before [v Hv] _ IH]; cbn [map app Express.dispatch].
  - rewrite middleware_cases, Hstage. reflexivity.
  - rewrite middleware_cases, Hv. exact IH.
Qed.

Lemma select_write_other (s s' : Slice) (v : value) (ctx : Request) :
  s <> s' -> select s' (write s v ctx) = select s' ctx.
Proof. destruct s, s'; intros Hne; try reflexivity; now elim Hne. Qed.

(** The handler stack of [index.ts] and the pipeline of the specification
    decide alike when no two stages read the same slice: the stack runs
    the handler where the pipeline returns [AllPassed], and answers with
    the failure where it returns [Rejected].  The context the pipeline
    writes to plays no part: the stack keeps the request as it arrived. *)
Lemma dispatch_refines_spec (handler : RequestHandler) (out : NextFunction) (w : World) :
  forall (stages : list PipelineStage) (i : nat) (ctx : Request),
    NoDup (map selector stages) ->
    (forall stage, In stage stages ->
                   select (selector stage) ctx = select (selector stage) (req w)) ->
    Express.dispatch (map middleware stages ++ [handler])%list out w =
    match fst (dispatch_from i stages ctx) with
    | AllPassed => handler w out
    | Rejected d _ => reject (validation_error d) w
    end.
Proof.
  induction stages as [|stage rest IH]; intros i ctx Hnodup Hctx;
    cbn [map app Express.dispatch dispatch_from]; [reflexivity|].
  rewrite middleware_cases. unfold run.
  rewrite (Hctx stage (or_introl eq_refl)).
  destruct (validate (descriptor stage) (select (selector stage) (req w)))
    as [v|d]; [|reflexivity].
  inversion Hnodup as [|? ? Hnotin Hrest]; subst.
  apply IH; [exact Hrest|].
  intros stage' Hin.
  rewrite select_write_other; [apply Hctx; now right|].
  intros Heq. apply Hnotin. rewrite Heq. now apply in_map.
Qed.

(** The route, by the outcomes of the three validations. *)
Lemma bar_cases (out : NextFunction) (w : World) :
  bar out w =
  match validate PayloadRuntype (body (req w)) with
  | Invalid d => reject (validation_error d) w
  | Valid _ =>
      match validate QueryParamRuntype (query (req w)) with
      | Invalid d => reject (validation_error d) w
      | Valid _ =>
          match validate PathParamRuntype (params (req w)) with
          | Invalid d => reject (validation_error d) w
          | Valid _ => barHandler w out
          end
      end
  end.
Proof.
  unfold bar; cbn [Express.dispatch].
  unfold bodyTypeParserMiddleware, queryTypeParserMiddleware,
    pathParamsParserMiddleware, check.
  destruct (validate PayloadRuntype (body (req w))); [|reflexivity].
  destruct (validate QueryParamRuntype (query (req w))); [|reflexivity].
  destruct (validate PathParamRuntype (params (req w))); reflexivity.
Qed.

(** The same case analysis on the pipeline of the specification. *)
Lemma spec_dispatch_bar_cases (r : Request) :
  fst (Spec.dispatch bar_stages r) =
  match validate PayloadRuntype (body r) with
  | Invalid d => Rejected d 0
  | Valid _ =>
      match validate QueryParamRuntype (query r) with
      | Invalid d => Rejected d 1
      | Valid _ =>
          match validate PathParamRuntype (params r) with
          | Invalid d => Rejected d 2
          | Valid _ => AllPassed
          end
      end
  end.
Proof.
  unfold Spec.dispatch, bar_stages, dispatch_from, run; cbn [selector descriptor select].
  destruct (validate PayloadRuntype (body r)); [|reflexivity].
  cbn [write query body params].
  destruct (validate QueryParamRuntype (query r)); [|reflexivity].
  cbn [write query body params].
  destruct (validate PathParamRuntype (params r)); reflexivity.
Qed.

End Pipeline.

(** Reduce a statement about the route, or about the pipeline of the
    specification on the stages of the route, to the outcomes of the three
    validations of the request [r]. *)
Ltac on_route r :=
  rewrite ?spec_dispatch_bar_cases, ?bar_cases;
  cbn [incoming arriving req];
  destruct (validate PayloadRuntype (body r)) as [?vb|?db] eqn:?Hb;
  [ destruct (validate QueryParamRuntype (query r)) as [?vq|?dq] eqn:?Hq;
    [ destruct (validate PathParamRuntype (params r)) as [?vp|?dp] eqn:?Hp | ] | ].

(* ================================================================== *)
(** * What the handler receives *)
(* ================================================================== *)

Section Handler.

(** C1 (as stated, refuted).  The request [request_with_excess] satisfies
    the three descriptors and the pipeline of the specification returns
    [AllPassed] with every slice restricted to its declared fields; the
    handler of [index.ts] answers with the body as it came in: the
    undeclared field [admin] is in the response. *)
Lemma handler_surfaces_excess_field :
  fst (Spec.dispatch bar_stages request_with_excess) = AllPassed /\
  snd (Spec.dispatch bar_stages request_with_excess) = valid_request /\
  sent (res (bar (fun w => w) (incoming request_with_excess))) =
    Some (VObj [("payload", body_with_excess); ("query", valid_query);
                ("params", valid_params)]) /\
  sent (res (bar (fun w => w) (incoming request_with_excess))) <>
    Some (VObj [("payload", valid_body); ("query", valid_query);
                ("params", valid_params)]).
Proof.
  repeat split; try (vm_compute; reflexivity).
  vm_compute. discriminate.
Qed.

(** C1 (amended).  For every request whose body, query and path
    parameters satisfy their descriptors, the pipeline returns
    [AllPassed], the route handler runs, and the response has status 200
    and carries the three slices exactly as they arrived, undeclared
    fields included: nothing is restricted to the declared fields. *)
Theorem valid_request_reaches_handler_unrestricted
  (r : Request) (out : NextFunction) (vb vq vp : value) :
  validate PayloadRuntype (body r) = Valid vb ->
  validate QueryParamRuntype (query r) = Valid vq ->
  validate PathParamRuntype (params r) = Valid vp ->
  fst (Spec.dispatch bar_stages r) = AllPassed /\
  bar out (incoming r) = barHandler (incoming r) out /\
  statusCode (res (bar out (incoming r))) = 200%Z /\
  sent (res (bar out (incoming r))) =
    Some (VObj [("payload", body r); ("query", query r); ("params", params r)]).
Proof.
  intros Hb Hq Hp.
  rewrite spec_dispatch_bar_cases, bar_cases.
  cbn [incoming arriving req].
  rewrite Hb, Hq, Hp.
  repeat split.
Qed.

Lemma valid_request_reaches_handler_unrestricted_witness :
  sent (res (bar (fun w => w) (incoming request_with_excess))) =
    Some (VObj [("payload", body request_with_excess);
                ("query", query request_with_excess);
                ("params", params request_with_excess)]).
Proof.
  apply (valid_request_reaches_handler_unrestricted request_with_excess (fun w => w)
           valid_body valid_query valid_params);
    vm_compute; reflexivity.
Defined.

(** C2 (as stated, refuted).  On [request_with_excess] the body validates
    and the stage of the specification writes the restricted body back;
    [bodyTypeParserMiddleware] hands on the request with the body it read,
    which is not the restricted one. *)
Lemma body_stage_writes_nothing_back :
  validate PayloadRuntype (body request_with_excess) = Valid valid_body /\
  snd (Spec.run {| selector := SBody; descriptor := PayloadRuntype |} request_with_excess)
    = write SBody valid_body request_with_excess /\
  req (bodyTypeParserMiddleware PayloadRuntype (incoming request_with_excess) (fun w => w))
    = request_with_excess /\
  req (bodyTypeParserMiddleware PayloadRuntype (incoming request_with_excess) (fun w => w))
    <> write SBody valid_body request_with_excess.
Proof.
  repeat split; try (vm_compute; reflexivity).
  vm_compute. discriminate.
Qed.

(** C2 (amended).  A stage never writes to the request.  When validation
    succeeds the stage calls [next] in the world it was given: the slice
    it read stays as it was, and no validated value is written back.  When
    validation fails the stage answers 400 with the failure and leaves the
    request and the log as they were. *)
Theorem stage_never_writes_request
  (stage : PipelineStage) (w : World) (next : NextFunction) :
  (forall v, validate (descriptor stage) (select (selector stage) (req w)) = Valid v ->
             middleware stage w next = next w) /\
  (forall d, validate (descriptor stage) (select (selector stage) (req w)) = Invalid d ->
             middleware stage w next = reject (validation_error d) w /\
             req (middleware stage w next) = req w /\
             console (middleware stage w next) = console w /\
             res (middleware stage w next)
               = {| statusCode := 400; sent := Some (envelope d) |}).
Proof.
  split.
  - intros v Hv. now rewrite middleware_cases, Hv.
  - intros d Hd. rewrite middleware_cases, Hd. repeat split.
Qed.

Lemma stage_never_writes_request_witness :
  middleware {| selector := SBody; descriptor := PayloadRuntype |}
    (incoming request_with_excess) (fun w => w) = incoming request_with_excess /\
  req (middleware {| selector := SQuery; descriptor := QueryParamRuntype |}
         (incoming all_wrong_request) (fun w => w)) = all_wrong_request.
Proof.
  split.
  - apply (proj1 (stage_never_writes_request
                    {| selector := SBody; descriptor := PayloadRuntype |}
                    (incoming request_with_excess) (fun w => w)) valid_body).
    vm_compute; reflexivity.
  - apply (proj2 (stage_never_writes_request
                    {| selector := SQuery; descriptor := QueryParamRuntype |}
                    (incoming all_wrong_request) (fun w => w))
             [("foo", "Expected literal `bar`, but was `random`")]).
    vm_compute; reflexivity.
Defined.

(** C9.  The request with body [{email: test@gmail.com}], query [foo=bar]
    and path parameter [id=1] passes the three stages, and the response
    has status 200 and the body
    [{payload: {email: test@gmail.com}, query: {foo: bar}, params: {id: 1}}],
    in that order of keys on the wire. *)
Theorem valid_request_response (out : NextFunction) :
  fst (Spec.dispatch bar_stages valid_request) = AllPassed /\
  statusCode (res (bar out (incoming valid_request))) = 200%Z /\
  sent (res (bar out (incoming valid_request))) =
    Some (VObj [("payload", VObj [("email", VStr "test@gmail.com")]);
                ("query", VObj [("foo", VStr "bar")]);
                ("params", VObj [("id", VStr "1")])]) /\
  wire (bar out (incoming valid_request)) = Some valid_response_text.
Proof.
  repeat split; vm_compute; reflexivity.
Qed.

End Handler.

(* ================================================================== *)
(** * Rejection *)
(* ================================================================== *)

Section Rejection.

(** C3.  When a stage rejects the request, the response has status 400 and
    its body is the envelope [{error: {name: ValidationError, code:
    CONTENT_INCORRECT, details}}], where [details] is the mapping of the
    stage that failed, the stages before it having passed; it has exactly
    one key, and nothing of another stage is in it. *)
Theorem rejected_request_error_envelope
  (r : Request) (out : NextFunction) (d : list (string * string)) (i : nat) :
  fst (Spec.dispatch bar_stages r) = Rejected d i ->
  statusCode (res (bar out (incoming r))) = 400%Z /\
  (exists stage,
      nth_error bar_stages i = Some stage /\
      Forall (stage_passes r) (firstn i bar_stages) /\
      validate (descriptor stage) (select (selector stage) r) = Invalid d) /\
  (exists k reason,
      d = [(k, reason)] /\
      sent (res (bar out (incoming r))) =
        Some (VObj [("error",
                     VObj [("name", VStr "ValidationError");
                           ("code", VStr "CONTENT_INCORRECT");
                           ("details", VObj [(k, VStr reason)])])])).
Proof.
  on_route r; [discriminate | | | ].
  all: intros [= <- <-]; split; [reflexivity|]; split.
  - eexists; split; [reflexivity|]; split; [|exact Hp].
    repeat constructor; eexists; eassumption.
  - destruct (validate_singleton _ _ _ Hp) as (k & reason & ->).
    exists k, reason. split; reflexivity.
  - eexists; split; [reflexivity|]; split; [|exact Hq].
    repeat constructor; eexists; eassumption.
  - destruct (validate_singleton _ _ _ Hq) as (k & reason & ->).
    exists k, reason. split; reflexivity.
  - eexists; split; [reflexivity|]; split; [|exact Hb].
    constructor.
  - destruct (validate_singleton _ _ _ Hb) as (k & reason & ->).
    exists k, reason. split; reflexivity.
Qed.

Lemma rejected_request_error_envelope_witness :
  statusCode (res (bar (fun w => w) (incoming all_wrong_request))) = 400%Z.
Proof.
  apply (rejected_request_error_envelope all_wrong_request (fun w => w)
           [("email", "Failed constraint check for unknown")] 0).
  vm_compute; reflexivity.
Defined.

(** C4.  When several slices are invalid at once, the response carries
    the error of the first stage, in the order body, query, path
    parameters, whose slice is invalid, and of no other: status 400 and
    the envelope of that stage's details, whatever the later slices hold.
    A stage that fails answers by itself, whatever handlers are attached
    after it: none of them is run, nothing is logged.  The route handler
    runs, and logs, only when the three stages passed; then the status is
    200. *)
Theorem earliest_failing_stage_wins (r : Request) (out : NextFunction) :
  (forall d,
      validate PayloadRuntype (body r) = Invalid d ->
      res (bar out (incoming r)) = {| statusCode := 400; sent := Some (envelope d) |} /\
      console (bar out (incoming r)) = []) /\
  (forall v d,
      validate PayloadRuntype (body r) = Valid v ->
      validate QueryParamRuntype (query r) = Invalid d ->
      res (bar out (incoming r)) = {| statusCode := 400; sent := Some (envelope d) |} /\
      console (bar out (incoming r)) = []) /\
  (forall v v' d,
      validate PayloadRuntype (body r) = Valid v ->
      validate QueryParamRuntype (query r) = Valid v' ->
      validate PathParamRuntype (params r) = Invalid d ->
      res (bar out (incoming r)) = {| statusCode := 400; sent := Some (envelope d) |} /\
      console (bar out (incoming r)) = []) /\
  (forall before stage rest d,
      Forall (stage_passes r) before ->
      validate (descriptor stage) (select (selector stage) r) = Invalid d ->
      res (Express.dispatch (map middleware before ++ middleware stage :: rest)%list
             out (incoming r))
        = {| statusCode := 400; sent := Some (envelope d) |} /\
      console (Express.dispatch (map middleware before ++ middleware stage :: rest)%list
                 out (incoming r)) = []) /\
  (console (bar out (incoming r)) <> [] ->
   fst (Spec.dispatch bar_stages r) = AllPassed) /\
  (fst (Spec.dispatch bar_stages r) = AllPassed ->
   statusCode (res (bar out (incoming r))) = 200%Z /\
   sent (res (bar out (incoming r)))
     = Some (VObj [("payload", body r); ("query", query r); ("params", params r)]) /\
   List.length (console (bar out (incoming r))) = 3) /\
  (fst (Spec.dispatch bar_stages r) <> AllPassed ->
   statusCode (res (bar out (incoming r))) = 400%Z /\
   console (bar out (incoming r)) = []).
Proof.
  split; [|split; [|split; [|split; [|split; [|split]]]]].
  - intros d Hb. rewrite bar_cases. cbn [incoming arriving req].
    rewrite Hb. split; reflexivity.
  - intros v d Hb Hq. rewrite bar_cases. cbn [incoming arriving req].
    rewrite Hb, Hq. split; reflexivity.
  - intros v v' d Hb Hq Hp. rewrite bar_cases. cbn [incoming arriving req].
    rewrite Hb, Hq, Hp. split; reflexivity.
  - intros before stage rest d Hbefore Hstage.
    rewrite (dispatch_first_failure before stage rest out (incoming r) d Hbefore Hstage).
    split; reflexivity.
  - on_route r; [reflexivity | | | ]; intros []; reflexivity.
  - on_route r; [repeat split | | | ]; discriminate.
  - on_route r; [intros []; reflexivity | | | ]; intros _; split; reflexivity.
Qed.

Lemma earliest_failing_stage_wins_witness :
  res (bar (fun w => w) (incoming all_wrong_request))
  = {| statusCode := 400;
       sent := Some (envelope [("email", "Failed constraint check for unknown")]) |} /\
  console (bar (fun w => w) (incoming all_wrong_request)) = [].
Proof.
  apply (proj1 (earliest_failing_stage_wins all_wrong_request (fun w => w))).
  vm_compute; reflexivity.
Defined.

End Rejection.

(* ================================================================== *)
(** * Unions *)
(* ================================================================== *)

Section Descriptors.

(** C6 (as stated, refuted).  Neither alternative of the union of the
    literals 1 and 2 accepts the string [random]; the first alternative
    fails with [Expected literal `1`, but was `random`], and the union
    reports [Expected "1" | "2", but was string], which is the reason the
    route gives for the path parameter [id=random]. *)
Lemma union_reason_is_not_first_alternative :
  Forall (rejects (VStr "random")) [Literal (LStr "1"); Literal (LStr "2")] /\
  validate (Literal (LStr "1")) (VStr "random")
    = Invalid [("", "Expected literal `1`, but was `random`")] /\
  validate one_or_two (VStr "random")
    = Invalid [("", "Expected " ++ quoted "1" ++ " | " ++ quoted "2" ++ ", but was string")] /\
  validate one_or_two (VStr "random") <> validate (Literal (LStr "1")) (VStr "random") /\
  validate PathParamRuntype wrong_params
    = Invalid [("id", "Expected " ++ quoted "1" ++ " | " ++ quoted "2" ++ ", but was string")].
Proof.
  split; [|repeat split; try (vm_compute; reflexivity)].
  - repeat constructor; eexists; vm_compute; reflexivity.
  - vm_compute. discriminate.
Qed.

(** C6 (amended).  A union attempts its alternatives in listed order and
    the first that accepts the value wins.  When none accepts, the reason
    is the union's own: [Expected <the summaries of all the alternatives,
    joined by a bar>, but was <the type of the value>]; it is not the
    reason of the first alternative. *)
Theorem union_first_match_else_union_reason
  (alternatives : list Runtype) (x : value) :
  (forall v,
      validate (Union alternatives) x = Valid v <->
      exists before alt after,
        alternatives = (before ++ alt :: after)%list /\
        Forall (rejects x) before /\
        validate alt x = Valid v) /\
  (Forall (rejects x) alternatives ->
   validate (Union alternatives) x
   = Invalid [("", "Expected " ++ String.concat " | " (map show alternatives)
                     ++ ", but was " ++ typeOf x)]).
Proof.
  split.
  - intros v. rewrite validate_Union, <- validate_alternatives_Some.
    destruct (validate_alternatives validate x alternatives) as [v'|].
    + split; [intros [= ->] | intros [= ->]]; reflexivity.
    + split; discriminate.
  - intros Hall. apply validate_alternatives_None in Hall.
    rewrite validate_Union, Hall. reflexivity.
Qed.

Lemma union_first_match_else_union_reason_witness :
  validate one_or_two (VStr "random")
  = Invalid [("", "Expected " ++ String.concat " | " (map show [Literal (LStr "1"); Literal (LStr "2")])
                    ++ ", but was " ++ typeOf (VStr "random"))].
Proof.
  apply (proj2 (union_first_match_else_union_reason
                  [Literal (LStr "1"); Literal (LStr "2")] (VStr "random"))).
  repeat constructor; eexists; vm_compute; reflexivity.
Defined.

End Descriptors.

(* ================================================================== *)
(** * The email guard *)
(* ================================================================== *)

Section EmailGuard.

(** A record of one guarded field, on an object that has just that
    field. *)
Lemma guarded_field (key : string) (g : value -> bool) (xv : value) :
  validate (Record [(key, Guard (fun v => Some (g v)))]) (VObj [(key, xv)])
  = if g xv then Valid (VObj [(key, xv)]) else Invalid [(key, constraint_reason)].
Proof.
  rewrite validate_Record. cbn [validate_fields get lookup].
  rewrite String.eqb_refl. cbn [validate].
  destruct (g xv); reflexivity.
Qed.

(** C10.  [isEmail] accepts exactly the strings that end in [@gmail.com],
    and asks nothing more of the address: the bare [@gmail.com], with an
    empty local part, satisfies the body descriptor, and a request with
    that body passes the body stage. *)
Theorem isEmail_accepts_exactly_gmail_suffix :
  (forall v, isEmail v = true <-> exists local, v = VStr (local ++ "@gmail.com")) /\
  (forall xv,
      validate PayloadRuntype (VObj [("email", xv)]) = Valid (VObj [("email", xv)]) <->
      exists local, xv = VStr (local ++ "@gmail.com")) /\
  isEmail (VStr "@gmail.com") = true /\
  validate PayloadRuntype bare_domain_body = Valid bare_domain_body /\
  (forall next,
      bodyTypeParserMiddleware PayloadRuntype (incoming bare_domain_request) next
      = next (incoming bare_domain_request)).
Proof.
  assert (Hmail : forall v, isEmail v = true <->
                            exists local, v = VStr (local ++ "@gmail.com")).
  { intros v. unfold isEmail. destruct v as [| b | n | s | items | props];
      try (split; [discriminate | intros [local [=]]]).
    rewrite endsWith_suffix. split; intros [local H]; exists local; congruence. }
  split; [exact Hmail|]. split; [|repeat split].
  - intros xv. rewrite <- Hmail.
    unfold PayloadRuntype. rewrite guarded_field.
    destruct (isEmail xv); split; congruence.
Qed.

Lemma isEmail_accepts_exactly_gmail_suffix_witness :
  isEmail (VStr ("" ++ "@gmail.com")) = true.
Proof.
  apply (proj1 isEmail_accepts_exactly_gmail_suffix).
  exists "". reflexivity.
Defined.

End EmailGuard.

(* ================================================================== *)
(** * The requests of the README, on the wire *)
(* ================================================================== *)

Section Readme.

Example readme_valid_request :
  answer valid_body valid_query valid_params = (200%Z, Some valid_response_text).
Proof. vm_compute; reflexivity. Qed.

Example readme_wrong_query_content :
  answer valid_body wrong_query valid_params
  = (400%Z, Some (error_response_text "foo" "Expected literal `bar`, but was `random`")).
Proof. vm_compute; reflexivity. Qed.

Example readme_wrong_query_key :
  answer valid_body missing_query valid_params
  = (400%Z, Some (error_response_text "foo"
                    ("Expected \" ++ dquote ++ "bar\" ++ dquote ++ ", but was missing"))).
Proof. vm_compute; reflexivity. Qed.

Example readme_wrong_email :
  answer wrong_email_body valid_query valid_params
  = (400%Z, Some (error_response_text "email" "Failed constraint check for unknown")).
Proof. vm_compute; reflexivity. Qed.

Example readme_wrong_email_key :
  answer (VObj [("random", VStr "test@gmail.com")]) valid_query valid_params
  = (400%Z, Some (error_response_text "email" "Expected unknown, but was missing")).
Proof. vm_compute; reflexivity. Qed.

Example readme_no_body :
  answer (VObj []) valid_query valid_params
  = (400%Z, Some (error_response_text "email" "Expected unknown, but was missing")).
Proof. vm_compute; reflexivity. Qed.

Example readme_wrong_path_parameter :
  answer valid_body valid_query wrong_params
  = (400%Z, Some (error_response_text "id"
                    ("Expected \" ++ dquote ++ "1\" ++ dquote ++ " | \" ++ dquote ++ "2\"
                       ++ dquote ++ ", but was string"))).
Proof. vm_compute; reflexivity. Qed.

End Readme.

(* ================================================================== *)
(** * Parsing in the handler, and the earlier middleware *)
(* ================================================================== *)

Section Approaches.

(** [/foo], by the outcomes of its two checks. *)
Lemma foo_cases (out : NextFunction) (w : World) :
  Approach1.foo out w =
  match validate PayloadRuntype (body (req w)) with
  | Invalid d => reject (validation_error d) w
  | Valid vb =>
      match validate QueryParamRuntype (query (req w)) with
      | Invalid d => reject (validation_error d) w
      | Valid vq =>
          json (VObj [("payload", vb); ("query", vq)])
            (queryLogger vq (payloadLogger vb w))
      end
  end.
Proof.
  unfold Approach1.foo, Approach1.fooHandler, check; cbn [Express.dispatch].
  destruct (validate PayloadRuntype (body (req w))); [|reflexivity].
  destruct (validate QueryParamRuntype (query (req w))); reflexivity.
Qed.

(** The handler stack of a route with the body and the query middleware
    in front of [handler]. *)
Lemma two_stage_cases (handler : RequestHandler) (out : NextFunction) (w : World) :
  Express.dispatch [ bodyTypeParserMiddleware PayloadRuntype;
                     queryTypeParserMiddleware QueryParamRuntype;
                     handler ] out w =
  match validate PayloadRuntype (body (req w)) with
  | Invalid d => reject (validation_error d) w
  | Valid _ =>
      match validate QueryParamRuntype (query (req w)) with
      | Invalid d => reject (validation_error d) w
      | Valid _ => handler w out
      end
  end.
Proof.
  cbn [Express.dispatch].
  unfold bodyTypeParserMiddleware, queryTypeParserMiddleware, check.
  destruct (validate PayloadRuntype (body (req w))); [|reflexivity].
  destruct (validate QueryParamRuntype (query (req w))); reflexivity.
Qed.

(** The earlier route, as a stack of the two middleware functions. *)
Lemma combined_bar_stack (out : NextFunction) (w : World) :
  Combined.bar out w
  = Express.dispatch [ bodyTypeParserMiddleware PayloadRuntype;
                       queryTypeParserMiddleware QueryParamRuntype;
                       Combined.barHandler ] out w.
Proof.
  unfold Combined.bar; cbn [Express.dispatch].
  unfold Combined.typeParserMiddleware, bodyTypeParserMiddleware,
    queryTypeParserMiddleware.
  destruct (check PayloadRuntype (body (req w))); [|reflexivity].
  destruct (check QueryParamRuntype (query (req w))); reflexivity.
Qed.

(** X1.  Parsing inside the handler and parsing in middleware refuse
    alike: when the body or the query of a request is invalid, [/foo] and
    [/bar/:id] leave the same world behind, with status 400, the same error
    body, nothing logged and the request as it arrived. *)
Theorem foo_rejects_like_bar
  (r : Request) (log : list string) (out out' : NextFunction) :
  rejects (body r) PayloadRuntype \/ rejects (query r) QueryParamRuntype ->
  Approach1.foo out (arriving r log) = bar out' (arriving r log) /\
  statusCode (res (Approach1.foo out (arriving r log))) = 400%Z /\
  console (Approach1.foo out (arriving r log)) = log /\
  req (Approach1.foo out (arriving r log)) = r.
Proof.
  intros Hrej. rewrite foo_cases, bar_cases. cbn [arriving req].
  destruct (validate PayloadRuntype (body r)) as [vb|db] eqn:Hb.
  - destruct (validate QueryParamRuntype (query r)) as [vq|dq] eqn:Hq.
    + destruct Hrej as [[d Hd] | [d Hd]]; congruence.
    + repeat split.
  - repeat split.
Qed.

Lemma foo_rejects_like_bar_witness :
  Approach1.foo (fun w => w) (incoming wrong_query_request)
  = bar (fun w => w) (incoming wrong_query_request).
Proof.
  apply (foo_rejects_like_bar wrong_query_request [] (fun w => w) (fun w => w)).
  right. eexists. vm_compute. reflexivity.
Defined.

(** X2.  When both checks of [/foo] return, the response has status 200
    and holds the two values [check] returned, the log gains the two lines
    for those values, and the request is not touched; and [/foo] never
    reads the path parameters: requests that differ in them only get the
    same response and the same log. *)
Theorem foo_answers_with_checked_values
  (r : Request) (log : list string) (out : NextFunction) :
  (forall vb vq,
      check PayloadRuntype (body r) = Return vb ->
      check QueryParamRuntype (query r) = Return vq ->
      req (Approach1.foo out (arriving r log)) = r /\
      res (Approach1.foo out (arriving r log))
        = {| statusCode := 200;
             sent := Some (VObj [("payload", vb); ("query", vq)]) |} /\
      console (Approach1.foo out (arriving r log))
        = List.app log ["Received payload: " ++ JSON_stringify vb;
                        "Received query params: " ++ JSON_stringify vq]) /\
  (forall p',
      let r' := {| body := body r; query := query r; params := p' |} in
      res (Approach1.foo out (arriving r' log)) = res (Approach1.foo out (arriving r log)) /\
      console (Approach1.foo out (arriving r' log))
        = console (Approach1.foo out (arriving r log))).
Proof.
  split.
  - intros vb vq Hb Hq. rewrite foo_cases. cbn [arriving req].
    unfold check in Hb, Hq.
    destruct (validate PayloadRuntype (body r)) as [vb'|]; [|discriminate].
    destruct (validate QueryParamRuntype (query r)) as [vq'|]; [|discriminate].
    injection Hb as ->. injection Hq as ->.
    unfold json, send, queryLogger, payloadLogger, console_log;
      cbn [req res console statusCode sent].
    rewrite <- app_assoc. repeat split.
  - intros p' r'. subst r'. rewrite !foo_cases. cbn [arriving req body query].
    destruct (validate PayloadRuntype (body r)); [|split; reflexivity].
    destruct (validate QueryParamRuntype (query r)); split; reflexivity.
Qed.

Lemma foo_answers_with_checked_values_witness :
  res (Approach1.foo (fun w => w) (incoming wrong_params_request))
  = {| statusCode := 200;
       sent := Some (VObj [("payload", valid_body); ("query", valid_query)]) |}.
Proof.
  apply (proj1 (foo_answers_with_checked_values wrong_params_request [] (fun w => w))
           valid_body valid_query);
    vm_compute; reflexivity.
Defined.

(** X3.  The single middleware of the earlier version is the body
    middleware followed by the query middleware: splitting it in two
    changed nothing, for any two descriptors, and the earlier route is the
    stack of the two in front of its handler. *)
Theorem typeParserMiddleware_splits
  (bodyParserRuntype queryParserRuntype : Runtype) (w : World) (next : NextFunction) :
  Combined.typeParserMiddleware bodyParserRuntype queryParserRuntype w next
  = bodyTypeParserMiddleware bodyParserRuntype w
      (fun w' => queryTypeParserMiddleware queryParserRuntype w' next) /\
  (forall out,
      Combined.bar out w
      = Express.dispatch [ bodyTypeParserMiddleware PayloadRuntype;
                           queryTypeParserMiddleware QueryParamRuntype;
                           Combined.barHandler ] out w).
Proof.
  split.
  - unfold Combined.typeParserMiddleware, bodyTypeParserMiddleware,
      queryTypeParserMiddleware.
    destruct (check bodyParserRuntype (body (req w))); [|reflexivity].
    destruct (check queryParserRuntype (query (req w))); reflexivity.
  - intros out. apply combined_bar_stack.
Qed.

(** X4.  From the route with one middleware to the route with two, only
    the body of the success response changed: for every request the two
    routes leave the same request, the same log and the same status; they
    send the same error when they refuse; and when they accept, the
    earlier one sends the body alone and the later one the body and the
    query under [payload] and [query]. *)
Theorem split_route_changes_success_body_only
  (r : Request) (log : list string) (out out' : NextFunction) :
  req (Combined.bar out (arriving r log)) = req (TwoStage.bar out' (arriving r log)) /\
  console (Combined.bar out (arriving r log))
    = console (TwoStage.bar out' (arriving r log)) /\
  statusCode (res (Combined.bar out (arriving r log)))
    = statusCode (res (TwoStage.bar out' (arriving r log))) /\
  (statusCode (res (Combined.bar out (arriving r log))) = 400%Z ->
   Combined.bar out (arriving r log) = TwoStage.bar out' (arriving r log)) /\
  (statusCode (res (Combined.bar out (arriving r log))) = 200%Z ->
   sent (res (Combined.bar out (arriving r log))) = Some (body r) /\
   sent (res (TwoStage.bar out' (arriving r log)))
     = Some (VObj [("payload", body r); ("query", query r)])).
Proof.
  rewrite combined_bar_stack.
  unfold TwoStage.bar. rewrite !two_stage_cases. cbn [arriving req].
  destruct (validate PayloadRuntype (body r)).
  1: destruct (validate QueryParamRuntype (query r)).
  all: repeat split; try reflexivity; try discriminate.
Qed.

Lemma split_route_changes_success_body_only_witness :
  Combined.bar (fun w => w) (incoming wrong_body_request)
  = TwoStage.bar (fun w => w) (incoming wrong_body_request).
Proof.
  apply (split_route_changes_success_body_only wrong_body_request []
           (fun w => w) (fun w => w)).
  vm_compute; reflexivity.
Defined.

End Approaches.

(* ================================================================== *)
(** * What a client always gets *)
(* ================================================================== *)

Section Answers.

Lemma details_value_injective (d d' : list (string * string)) :
  map (fun '(k, reason) => (k, VStr reason)) d
  = map (fun '(k, reason) => (k, VStr reason)) d' ->
  d = d'.
Proof.
  revert d'; induction d as [|[k reason] d IH]; intros [|[k' reason'] d'];
    cbn [map]; try discriminate; [reflexivity|].
  intros [= -> -> Hrest]. f_equal. now apply IH.
Qed.

Lemma reject_injective (d d' : list (string * string)) (w : World) :
  reject (validation_error d) w = reject (validation_error d') w -> d = d'.
Proof.
  intros Heq. apply (f_equal (fun w => sent (res w))) in Heq.
  cbn in Heq. injection Heq as Heq. now apply details_value_injective.
Qed.

(** X5.  The order of two middleware functions matters only when both
    refuse.  If the slice of at least one of two neighbouring stages is
    valid, swapping them changes nothing, whatever is attached after them;
    if both are invalid, each order answers with the error of the stage
    that comes first, and the two answers differ as soon as the two errors
    do. *)
Theorem stage_order_matters_only_when_both_fail
  (s1 s2 : PipelineStage) (rest : list RequestHandler) (out : NextFunction) (w : World) :
  (stage_passes (req w) s1 \/ stage_passes (req w) s2 ->
   Express.dispatch (middleware s1 :: middleware s2 :: rest) out w
   = Express.dispatch (middleware s2 :: middleware s1 :: rest) out w) /\
  (forall d1 d2,
      validate (descriptor s1) (select (selector s1) (req w)) = Invalid d1 ->
      validate (descriptor s2) (select (selector s2) (req w)) = Invalid d2 ->
      Express.dispatch (middleware s1 :: middleware s2 :: rest) out w
        = reject (validation_error d1) w /\
      Express.dispatch (middleware s2 :: middleware s1 :: rest) out w
        = reject (validation_error d2) w /\
      (d1 <> d2 ->
       Express.dispatch (middleware s1 :: middleware s2 :: rest) out w
       <> Express.dispatch (middleware s2 :: middleware s1 :: rest) out w)).
Proof.
  cbn [Express.dispatch]. rewrite !middleware_cases.
  destruct (validate (descriptor s1) (select (selector s1) (req w))) as [v1|d1] eqn:H1;
    destruct (validate (descriptor s2) (select (selector s2) (req w))) as [v2|d2] eqn:H2.
  all: rewrite ?middleware_cases, ?H1, ?H2.
  all: split; [intros Hpass | intros e1 e2 He1 He2; try discriminate].
  all: try reflexivity.
  - destruct Hpass as [[v Hv] | [v Hv]]; congruence.
  - injection He1 as <-. injection He2 as <-.
    split; [reflexivity|]. split; [reflexivity|].
    intros Hne Heq. apply Hne. now apply reject_injective in Heq.
Qed.

Lemma stage_order_matters_only_when_both_fail_witness :
  Express.dispatch [middleware body_stage; middleware query_stage; barHandler]
    (fun w => w) (incoming all_wrong_request)
  <> Express.dispatch [middleware query_stage; middleware body_stage; barHandler]
       (fun w => w) (incoming all_wrong_request).
Proof.
  apply (proj2 (stage_order_matters_only_when_both_fail body_stage query_stage
                  [barHandler] (fun w => w) (incoming all_wrong_request))
           [("email", "Failed constraint check for unknown")]
           [("foo", "Expected literal `bar`, but was `random`")]).
  - vm_compute; reflexivity.
  - vm_compute; reflexivity.
  - discriminate.
Defined.

(** X6.  [/bar/:id] answers every request, once: a body is always sent,
    the status is 200 or 400, the request object is left as it arrived,
    the lines logged before are kept, and the route never passes control
    on, so that what Express has after it plays no part. *)
Theorem bar_always_answers (r : Request) (log : list string) (out : NextFunction) :
  req (bar out (arriving r log)) = r /\
  sent (res (bar out (arriving r log))) <> None /\
  (statusCode (res (bar out (arriving r log))) = 200%Z \/
   statusCode (res (bar out (arriving r log))) = 400%Z) /\
  (exists lines, console (bar out (arriving r log)) = List.app log lines) /\
  (forall out', bar out' (arriving r log) = bar out (arriving r log)).
Proof.
  rewrite bar_cases. cbn [arriving req].
  assert (Hout : forall out', bar out' (arriving r log) =
    match validate PayloadRuntype (body r) with
    | Invalid d => reject (validation_error d) (arriving r log)
    | Valid _ =>
        match validate QueryParamRuntype (query r) with
        | Invalid d => reject (validation_error d) (arriving r log)
        | Valid _ =>
            match validate PathParamRuntype (params r) with
            | Invalid d => reject (validation_error d) (arriving r log)
            | Valid _ => barHandler (arriving r log) out
            end
        end
    end).
  { intros out'. rewrite bar_cases. reflexivity. }
  destruct (validate PayloadRuntype (body r)).
  1: destruct (validate QueryParamRuntype (query r)).
  1: destruct (validate PathParamRuntype (params r)).
  all: repeat split; try discriminate; try (now left); try (now right);
    try exact Hout.
  all: try (exists []; cbn; now rewrite app_nil_r).
  eexists. unfold barHandler, json, send, paramsLogger, queryLogger, payloadLogger,
    console_log; cbn [console req]. rewrite <- !app_assoc. reflexivity.
Qed.

(** X7.  What is logged.  A request that is accepted adds three lines to
    the log, with the prefixes for the payload, the query and the path
    parameters in this order; when the numbers in the three slices are
    safe integers, each line ends with the JSON text of the slice as it
    arrived.  A request that is refused adds none. *)
Theorem bar_logs_three_lines_or_none
  (r : Request) (log : list string) (out : NextFunction) :
  (statusCode (res (bar out (arriving r log))) = 200%Z ->
   exists payload_text query_text params_text,
     console (bar out (arriving r log))
     = List.app log ["Received payload: " ++ payload_text;
                     "Received query params: " ++ query_text;
                     "Received path params: " ++ params_text]) /\
  (statusCode (res (bar out (arriving r log))) = 200%Z ->
   safe_numbers (body r) = true ->
   safe_numbers (query r) = true ->
   safe_numbers (params r) = true ->
   console (bar out (arriving r log))
   = List.app log ["Received payload: " ++ JSON_stringify (body r);
                   "Received query params: " ++ JSON_stringify (query r);
                   "Received path params: " ++ JSON_stringify (params r)]) /\
  (statusCode (res (bar out (arriving r log))) = 400%Z ->
   console (bar out (arriving r log)) = log).
Proof.
  assert (Hlines : console (barHandler (arriving r log) out)
                   = List.app log ["Received payload: " ++ JSON_stringify (body r);
                                   "Received query params: " ++ JSON_stringify (query r);
                                   "Received path params: " ++ JSON_stringify (params r)]).
  { unfold barHandler, json, send, paramsLogger, queryLogger, payloadLogger,
      console_log; cbn [console req arriving]. rewrite <- !app_assoc. reflexivity. }
  on_route r; (split; [|split]); try discriminate; try reflexivity.
  - intros _. rewrite Hlines. now eexists _, _, _.
  - intros _ _ _ _. exact Hlines.
Qed.

Lemma bar_logs_three_lines_or_none_witness :
  console (bar (fun w => w) (arriving valid_request ["served before"]))
  = ["served before";
     "Received payload: " ++ JSON_stringify valid_body;
     "Received query params: " ++ JSON_stringify valid_query;
     "Received path params: " ++ JSON_stringify valid_params] /\
  console (bar (fun w => w) (arriving all_wrong_request ["served before"]))
  = ["served before"].
Proof.
  split.
  - apply (proj1 (proj2 (bar_logs_three_lines_or_none valid_request ["served before"]
                           (fun w => w)))); vm_compute; reflexivity.
  - apply (proj2 (proj2 (bar_logs_three_lines_or_none all_wrong_request
                           ["served before"] (fun w => w)))).
    vm_compute; reflexivity.
Defined.

End Answers.

(* ================================================================== *)
(** * Which requests are accepted, and the error of the others *)
(* ================================================================== *)

Section Acceptance.

Lemma single_field_record (key : string) (sub : Runtype) (x : value) :
  validate (Record [(key, sub)]) x =
  match get x key with
  | None => Invalid [(key, missing_reason sub)]
  | Some xv =>
      match validate sub xv with
      | Valid v => Valid (VObj [(key, v)])
      | Invalid d => Invalid (attribute key d)
      end
  end.
Proof.
  rewrite validate_Record. cbn [validate_fields].
  destruct (get x key) as [xv|]; [destruct (validate sub xv)|]; reflexivity.
Qed.

Lemma union_of_two (a b : Runtype) (x : value) :
  validate (Union [a; b]) x =
  match validate a x with
  | Valid v => Valid v
  | Invalid _ =>
      match validate b x with
      | Valid v => Valid v
      | Invalid _ => Invalid [("", type_reason (Union [a; b]) x)]
      end
  end.
Proof.
  rewrite validate_Union. cbn [validate_alternatives].
  destruct (validate a x); [|destruct (validate b x)]; reflexivity.
Qed.

Lemma strict_eq_LStr (s : string) (x : value) :
  strict_eq (LStr s) x = true <-> x = VStr s.
Proof.
  destruct x; cbn [strict_eq]; try (split; [discriminate | intros [=]]).
  rewrite String.eqb_eq. split; [now intros -> | now intros [= ->]].
Qed.

Lemma isEmail_true_iff (v : value) :
  isEmail v = true <-> exists local, v = VStr (local ++ "@gmail.com").
Proof.
  unfold isEmail. destruct v as [| b | n | s | items | props];
    try (split; [discriminate | intros [local [=]]]).
  rewrite endsWith_suffix. split; intros [local H]; exists local; congruence.
Qed.

(** The three descriptors of [index.ts], by what the slice holds under the
    one key each declares. *)
Lemma payload_outcome (x : value) :
  validate PayloadRuntype x =
  match get x "email" with
  | None => Invalid [("email", "Expected unknown, but was missing")]
  | Some xv =>
      if isEmail xv then Valid (VObj [("email", xv)])
      else Invalid [("email", "Failed constraint check for unknown")]
  end.
Proof.
  unfold PayloadRuntype. rewrite single_field_record.
  destruct (get x "email") as [xv|]; [|reflexivity].
  cbn [validate]. destruct (isEmail xv); reflexivity.
Qed.

Lemma query_outcome (x : value) :
  validate QueryParamRuntype x =
  match get x "foo" with
  | None => Invalid [("foo", "Expected " ++ quoted "bar" ++ ", but was missing")]
  | Some xv =>
      if strict_eq (LStr "bar") xv then Valid (VObj [("foo", xv)])
      else Invalid [("foo", literal_reason (LStr "bar") xv)]
  end.
Proof.
  unfold QueryParamRuntype. rewrite single_field_record.
  destruct (get x "foo") as [xv|]; [|reflexivity].
  cbn [validate]. destruct (strict_eq (LStr "bar") xv); reflexivity.
Qed.

Lemma params_outcome (x : value) :
  validate PathParamRuntype x =
  match get x "id" with
  | None =>
      Invalid [("id", "Expected " ++ quoted "1" ++ " | " ++ quoted "2" ++ ", but was missing")]
  | Some xv =>
      if strict_eq (LStr "1") xv || strict_eq (LStr "2") xv
      then Valid (VObj [("id", xv)])
      else Invalid [("id", "Expected " ++ quoted "1" ++ " | " ++ quoted "2"
                             ++ ", but was " ++ typeOf xv)]
  end.
Proof.
  unfold PathParamRuntype. rewrite single_field_record.
  destruct (get x "id") as [xv|]; [|reflexivity].
  rewrite union_of_two. cbn [validate].
  destruct (strict_eq (LStr "1") xv); [reflexivity|].
  destruct (strict_eq (LStr "2") xv); reflexivity.
Qed.

(** X8.  The requests [/bar/:id] accepts.  The status is 200 exactly when
    the body has an [email] that is a string ending in [@gmail.com], the
    query has [foo] equal to the string [bar], and the path parameter [id]
    is the string [1] or the string [2]; what else the three slices hold
    plays no part. *)
Theorem bar_accepts_iff (r : Request) (log : list string) (out : NextFunction) :
  statusCode (res (bar out (arriving r log))) = 200%Z <->
  (exists local, get (body r) "email" = Some (VStr (local ++ "@gmail.com"))) /\
  get (query r) "foo" = Some (VStr "bar") /\
  (get (params r) "id" = Some (VStr "1") \/ get (params r) "id" = Some (VStr "2")).
Proof.
  rewrite bar_cases. cbn [arriving req].
  rewrite payload_outcome, query_outcome, params_outcome.
  destruct (get (body r) "email") as [e|].
  2: { split; [discriminate | intros [[local [=]] _]]. }
  destruct (isEmail e) eqn:He.
  2: { split; [discriminate|]. intros [[local [= ->]] _].
       assert (isEmail (VStr (local ++ "@gmail.com")) = true)
         by (apply isEmail_true_iff; now exists local).
       congruence. }
  apply isEmail_true_iff in He as [local ->].
  destruct (get (query r) "foo") as [f|].
  2: { split; [discriminate | intros [_ [[=] _]]]. }
  destruct (strict_eq (LStr "bar") f) eqn:Hf.
  2: { split; [discriminate|]. intros [_ [[= ->] _]].
       cbn in Hf. discriminate. }
  apply strict_eq_LStr in Hf as ->.
  destruct (get (params r) "id") as [i|].
  2: { split; [discriminate | intros [_ [_ [[=] | [=]]]]]. }
  destruct (strict_eq (LStr "1") i) eqn:H1.
  { apply strict_eq_LStr in H1 as ->. cbn [orb]. split; [|reflexivity].
    intros _. split; [now exists local|]. split; [reflexivity | now left]. }
  destruct (strict_eq (LStr "2") i) eqn:H2.
  { apply strict_eq_LStr in H2 as ->. cbn [orb]. split; [|reflexivity].
    intros _. split; [now exists local|]. split; [reflexivity | now right]. }
  cbn [orb]. split; [discriminate|].
  intros [_ [_ [[= ->] | [= ->]]]]; cbn in H1, H2; discriminate.
Qed.

Lemma bar_accepts_iff_witness :
  statusCode (res (bar (fun w => w) (arriving request_with_excess []))) = 200%Z.
Proof.
  apply (proj2 (bar_accepts_iff request_with_excess [] (fun w => w))).
  split; [exists "test"; reflexivity|]. split; [reflexivity | now left].
Defined.

(** X9.  The errors of the body stage.  A body with no [email] of its own,
    which includes every body that is not an object, is refused with the
    details [email: Expected unknown, but was missing]; a body whose
    [email] [isEmail] refuses is refused with [email: Failed constraint
    check for unknown]; in both cases whatever the query and the path
    parameters are. *)
Theorem body_stage_errors (r : Request) (log : list string) (out : NextFunction) :
  (get (body r) "email" = None ->
   res (bar out (arriving r log))
   = {| statusCode := 400;
        sent := Some (envelope [("email", "Expected unknown, but was missing")]) |}) /\
  (forall xv,
      get (body r) "email" = Some xv ->
      isEmail xv = false ->
      res (bar out (arriving r log))
      = {| statusCode := 400;
           sent := Some (envelope [("email", "Failed constraint check for unknown")]) |}).
Proof.
  rewrite bar_cases. cbn [arriving req]. rewrite payload_outcome.
  split.
  - intros ->. reflexivity.
  - intros xv -> ->. reflexivity.
Qed.

Lemma body_stage_errors_witness :
  res (bar (fun w => w) (incoming {| body := VArr [VStr "test@gmail.com"];
                                     query := wrong_query; params := wrong_params |}))
  = {| statusCode := 400;
       sent := Some (envelope [("email", "Expected unknown, but was missing")]) |}.
Proof.
  apply (proj1 (body_stage_errors
                  {| body := VArr [VStr "test@gmail.com"];
                     query := wrong_query; params := wrong_params |} [] (fun w => w))).
  reflexivity.
Defined.

(** X10.  The errors of the query stage, once the body passed.  A query
    without [foo] is refused with [foo: Expected "bar", but was missing];
    a query whose [foo] is a string other than [bar] is refused with
    [foo: Expected literal `bar`, but was `<that string>`]; whatever the
    path parameters are. *)
Theorem query_stage_errors (r : Request) (log : list string) (out : NextFunction) :
  stage_passes r body_stage ->
  (get (query r) "foo" = None ->
   res (bar out (arriving r log))
   = {| statusCode := 400;
        sent := Some (envelope [("foo", "Expected " ++ quoted "bar"
                                          ++ ", but was missing")]) |}) /\
  (forall s,
      get (query r) "foo" = Some (VStr s) ->
      s <> "bar" ->
      res (bar out (arriving r log))
      = {| statusCode := 400;
           sent := Some (envelope [("foo", "Expected literal `bar`, but was `"
                                             ++ s ++ "`")]) |}).
Proof.
  intros [vb Hb]. cbn [body_stage selector descriptor select] in Hb.
  rewrite bar_cases. cbn [arriving req]. rewrite Hb, query_outcome.
  split.
  - intros ->. reflexivity.
  - intros s -> Hs.
    destruct (strict_eq (LStr "bar") (VStr s)) eqn:Heq; [|reflexivity].
    apply strict_eq_LStr in Heq. congruence.
Qed.

Lemma query_stage_errors_witness :
  res (bar (fun w => w) (incoming wrong_query_request))
  = {| statusCode := 400;
       sent := Some (envelope [("foo", "Expected literal `bar`, but was `"
                                         ++ "random" ++ "`")]) |}.
Proof.
  apply (proj2 (query_stage_errors wrong_query_request [] (fun w => w)
                  (ex_intro _ valid_body eq_refl)) "random").
  - reflexivity.
  - discriminate.
Defined.

(** X11.  The errors of the path parameter stage, once the body and the
    query passed.  An [id] that is a string other than [1] and [2] is
    refused with [id: Expected "1" | "2", but was string], which names
    the type of the value and not the value; without [id] the reason ends
    in [but was missing]. *)
Theorem params_stage_errors (r : Request) (log : list string) (out : NextFunction) :
  stage_passes r body_stage ->
  stage_passes r query_stage ->
  (get (params r) "id" = None ->
   res (bar out (arriving r log))
   = {| statusCode := 400;
        sent := Some (envelope [("id", "Expected " ++ quoted "1" ++ " | " ++ quoted "2"
                                         ++ ", but was missing")]) |}) /\
  (forall s,
      get (params r) "id" = Some (VStr s) ->
      s <> "1" -> s <> "2" ->
      res (bar out (arriving r log))
      = {| statusCode := 400;
           sent := Some (envelope [("id", "Expected " ++ quoted "1" ++ " | " ++ quoted "2"
                                            ++ ", but was string")]) |}).
Proof.
  intros [vb Hb] [vq Hq].
  cbn [body_stage query_stage selector descriptor select] in Hb, Hq.
  rewrite bar_cases. cbn [arriving req]. rewrite Hb, Hq, params_outcome.
  split.
  - intros ->. reflexivity.
  - intros s -> H1 H2.
    destruct (strict_eq (LStr "1") (VStr s)) eqn:E1;
      [apply strict_eq_LStr in E1; congruence|].
    destruct (strict_eq (LStr "2") (VStr s)) eqn:E2;
      [apply strict_eq_LStr in E2; congruence|].
    reflexivity.
Qed.

Lemma params_stage_errors_witness :
  res (bar (fun w => w) (incoming wrong_params_request))
  = {| statusCode := 400;
       sent := Some (envelope [("id", "Expected " ++ quoted "1" ++ " | " ++ quoted "2"
                                        ++ ", but was string")]) |}.
Proof.
  apply (proj2 (params_stage_errors wrong_params_request [] (fun w => w)
                  (ex_intro _ valid_body eq_refl) (ex_intro _ valid_query eq_refl))
           "random").
  - reflexivity.
  - discriminate.
  - discriminate.
Defined.

(** X14.  The requests [/foo] accepts.  The status is 200 exactly when
    the body has an [email] that is a string ending in [@gmail.com] and
    the query has [foo] equal to the string [bar]; the path parameters are
    not looked at, so [/foo] accepts every request [/bar/:id] accepts, and
    also those [/bar/:id] refuses for their path parameter alone. *)
Theorem foo_accepts_iff (r : Request) (log : list string) (out out' : NextFunction) :
  (statusCode (res (Approach1.foo out (arriving r log))) = 200%Z <->
   (exists local, get (body r) "email" = Some (VStr (local ++ "@gmail.com"))) /\
   get (query r) "foo" = Some (VStr "bar")) /\
  (statusCode (res (bar out' (arriving r log))) = 200%Z ->
   statusCode (res (Approach1.foo out (arriving r log))) = 200%Z).
Proof.
  rewrite foo_cases, bar_cases. cbn [arriving req].
  rewrite payload_outcome, query_outcome.
  destruct (get (body r) "email") as [e|].
  2: { split; [|discriminate]. split; [discriminate | intros [[local [=]] _]]. }
  destruct (isEmail e) eqn:He.
  2: { split; [|discriminate]. split; [discriminate|]. intros [[local [= ->]] _].
       assert (isEmail (VStr (local ++ "@gmail.com")) = true)
         by (apply isEmail_true_iff; now exists local).
       congruence. }
  apply isEmail_true_iff in He as [local ->].
  destruct (get (query r) "foo") as [f|].
  2: { split; [|discriminate]. split; [discriminate | intros [_ [=]]]. }
  destruct (strict_eq (LStr "bar") f) eqn:Hf.
  2: { split; [|discriminate]. split; [discriminate|]. intros [_ [= ->]].
       cbn in Hf. discriminate. }
  apply strict_eq_LStr in Hf as ->.
  split; [|reflexivity].
  split; [|reflexivity]. intros _. split; [now exists local | reflexivity].
Qed.

Lemma foo_accepts_iff_witness :
  statusCode (res (Approach1.foo (fun w => w) (arriving wrong_params_request []))) = 200%Z.
Proof.
  apply (proj2 (proj1 (foo_accepts_iff wrong_params_request [] (fun w => w) (fun w => w)))).
  split; [exists "test"; reflexivity | reflexivity].
Defined.

End Acceptance.

(* ================================================================== *)
(** * The email guard at its edges, and the error on the wire *)
(* ================================================================== *)

Section Edges.

Lemma string_append_assoc (a b c : string) : (a ++ b) ++ c = a ++ (b ++ c).
Proof.
  induction a as [|ch a IH]; cbn [append]; [reflexivity | now rewrite IH].
Qed.

(** X12.  [isEmail] at its edges: a value that is not a string is refused,
    whatever it holds; so is every string shorter than the ten characters
    of [@gmail.com], the empty string included; and an accepted address
    stays accepted when anything is put in front of it. *)
Theorem isEmail_edges :
  (forall v, (forall s, v <> VStr s) -> isEmail v = false) /\
  (forall s, String.length s < 10 -> isEmail (VStr s) = false) /\
  (forall front s, isEmail (VStr s) = true -> isEmail (VStr (front ++ s)) = true).
Proof.
  split; [|split].
  - intros v Hv. destruct v; try reflexivity. now elim (Hv s).
  - intros s Hlen. destruct (isEmail (VStr s)) eqn:He; [|reflexivity].
    apply isEmail_true_iff in He as [local [= ->]].
    rewrite string_length_app in Hlen. cbn [String.length] in Hlen. lia.
  - intros front s He.
    apply isEmail_true_iff in He as [local [= ->]].
    apply isEmail_true_iff. exists (front ++ local).
    now rewrite string_append_assoc.
Qed.

Lemma isEmail_edges_witness :
  isEmail (VStr "gmail.com") = false /\
  isEmail (VStr ("someone" ++ "@gmail.com")) = true.
Proof.
  split.
  - apply (proj1 (proj2 isEmail_edges) "gmail.com"). cbn. lia.
  - apply (proj2 (proj2 isEmail_edges) "someone" "@gmail.com"). reflexivity.
Defined.

(** The JSON text of an error body with one detail. *)
Lemma error_body_text (field reason : string) :
  JSON_stringify (VObj [("error", error_value (validation_error [(field, reason)]))])
  = error_prefix ++ quote_json field ++ ":" ++ quote_json reason ++ "}}}".
Proof.
  unfold error_value, validation_error;
    cbn [name code details map JSON_stringify String.concat].
  change (quote_json "error") with (quoted "error").
  change (quote_json "name") with (quoted "name").
  change (quote_json "ValidationError") with (quoted "ValidationError").
  change (quote_json "code") with (quoted "code").
  change (quote_json "CONTENT_INCORRECT") with (quoted "CONTENT_INCORRECT").
  change (quote_json "details") with (quoted "details").
  unfold error_prefix, quote_json, quoted, dquote.
  generalize (escape field) (escape reason); intros a b.
  cbn [append]. repeat (rewrite string_append_assoc; cbn [append]).
  reflexivity.
Qed.

(** X13.  The error on the wire.  Whenever [/bar/:id] answers 400, the
    text sent is [{"error":{"name":"ValidationError","code":
    "CONTENT_INCORRECT","details":{<field>:<reason>}}}] with one field
    and one reason, both as JSON strings, and the keys in this order. *)
Theorem bar_error_wire_text (r : Request) (log : list string) (out : NextFunction) :
  statusCode (res (bar out (arriving r log))) = 400%Z ->
  exists field reason,
    wire (bar out (arriving r log))
    = Some (error_prefix ++ quote_json field ++ ":" ++ quote_json reason ++ "}}}").
Proof.
  on_route r; try discriminate; intros _.
  - destruct (validate_singleton _ _ _ Hp) as (k & reason & ->).
    exists k, reason. unfold wire; cbn [reject send status res sent option_map].
    now rewrite error_body_text.
  - destruct (validate_singleton _ _ _ Hq) as (k & reason & ->).
    exists k, reason. unfold wire; cbn [reject send status res sent option_map].
    now rewrite error_body_text.
  - destruct (validate_singleton _ _ _ Hb) as (k & reason & ->).
    exists k, reason. unfold wire; cbn [reject send status res sent option_map].
    now rewrite error_body_text.
Qed.

Lemma bar_error_wire_text_witness :
  exists field reason,
    wire (bar (fun w => w) (arriving wrong_params_request []))
    = Some (error_prefix ++ quote_json field ++ ":" ++ quote_json reason ++ "}}}").
Proof.
  apply (bar_error_wire_text wrong_params_request [] (fun w => w)).
  vm_compute; reflexivity.
Defined.

End Edges.

(* ================================================================== *)
(** * Records and guards in the library *)
(* ================================================================== *)

Section LibraryRecords.



(** The details of [RT] as the library holds them. *)
Lemma library_agrees_on_index_descriptors (props : list (string * value)) :
  let as_library (o : ValidationOutcome) : Library.result :=
    match o with
    | Valid _ => Library.Success (VObj props)
    | Invalid d =>
        Library.Failure "CONTENT_INCORRECT"
          (Library.Nested (map (fun '(k, reason) => (k, Library.Reason reason)) d))
    end in
  Library.validate PayloadRuntype (VObj props)
    = as_library (RT.validate PayloadRuntype (VObj props)) /\
  ((get (VObj props) "foo" = None \/ exists s, get (VObj props) "foo" = Some (VStr s)) ->
   Library.validate QueryParamRuntype (VObj props)
     = as_library (RT.validate QueryParamRuntype (VObj props))) /\
  ((get (VObj props) "id" = None \/ exists s, get (VObj props) "id" = Some (VStr s)) ->
   Library.validate PathParamRuntype (VObj props)
     = as_library (RT.validate PathParamRuntype (VObj props))).
Proof.
  intros as_library. subst as_library. split; [|split].
  - rewrite payload_outcome. unfold PayloadRuntype.
    cbn [Library.validate]. unfold Library.record_check.
    cbn [Library.check_fields]. destruct (get (VObj props) "email") as [e|];
      [|reflexivity].
    cbn [Library.validate]. unfold Library.guard_check.
    destruct (isEmail e); reflexivity.
  - intros Hfoo. rewrite query_outcome. unfold QueryParamRuntype.
    cbn [Library.validate]. unfold Library.record_check.
    cbn [Library.check_fields]. destruct Hfoo as [-> | [s ->]]; [reflexivity|].
    cbn [Library.validate]. destruct (strict_eq (LStr "bar") (VStr s)); reflexivity.
  - intros Hid. rewrite params_outcome. unfold PathParamRuntype.
    cbn [Library.validate]. unfold Library.record_check.
    cbn [Library.check_fields]. destruct Hid as [-> | [s ->]]; [reflexivity|].
    cbn [Library.validate Library.check_alternatives].
    destruct (strict_eq (LStr "1") (VStr s)); [reflexivity|].
    destruct (strict_eq (LStr "2") (VStr s)); reflexivity.
Qed.








End LibraryRecords.
